(** * shell-server: the run_command dispatch pipeline

    A shallow embedding of [src/config.ts] (the part after the document
    separator, i.e. the server's [index.ts]): the command tokenizer
    [splitCommand], the policy gate [validateCommand] over
    [BLACKLISTED_COMMANDS], and the [CallToolRequestSchema] handler that
    chains tokenizer, existence resolver, policy gate and process executor.

    JavaScript strings are sequences of UTF-16 code units; they are modelled
    as lists of [N].  The two external collaborators, [commandExists]
    (package command-exists) and [execa] (package execa), are not part of
    the repository and are taken as parameters of the handler;
    [commandExists_package] gives the promise interface of the former. *)

From Stdlib Require Import Ascii String.
From Stdlib Require Import List NArith Bool Arith Lia SpecFloat.
From Equations Require Import Equations.
Import ListNotations.

(** ** JavaScript strings *)

Module Js.

(** A UTF-16 code unit. *)
Definition char16 := N.

(** A JavaScript string value. *)
Definition str := list char16.

(** Code units of an ASCII literal of the source text. *)
Fixpoint lit (s : string) : str :=
  match s with
  | EmptyString => []
  | String c s' => N_of_ascii c :: lit s'
  end.

Definition str_eqb (a b : str) : bool :=
  if list_eq_dec N.eq_dec a b then true else false.

(** [s.startsWith(p)] *)
Fixpoint startsWith (p s : str) : bool :=
  match p, s with
  | [], _ => true
  | _ :: _, [] => false
  | a :: p', b :: s' => N.eqb a b && startsWith p' s'
  end.

(** [s.includes(p)]: [p] occurs in [s] as a contiguous run of code units. *)
Fixpoint includes (p s : str) : bool :=
  startsWith p s ||
  match s with
  | [] => false
  | _ :: s' => includes p s'
  end.

(** A value that is either [undefined] or a string: the type of an array
    element read by destructuring, and of [request.params.arguments?.command]. *)
Definition ustr := option str.

(** [String(v)] / template-literal interpolation [`${v}`] of such a value. *)
Definition ToString (v : ustr) : str :=
  match v with
  | None => lit "undefined"
  | Some s => s
  end.

(** Truthiness of such a value: [undefined] and the empty string are falsy. *)
Definition truthy (v : ustr) : bool :=
  match v with
  | None => false
  | Some [] => false
  | Some (_ :: _) => true
  end.

(** [a || b] on values. *)
Definition or_else (a b : ustr) : ustr := if truthy a then a else b.

(** [a || b] where the right operand is a string. *)
Definition or_default (a : ustr) (b : str) : str :=
  match a with
  | Some (c :: a') => c :: a'
  | _ => b
  end.

End Js.

Import Js.

(** ** The tokenizer's regular expressions *)

Module RegExp.

Definition TAB : char16 := 9%N.
Definition LF : char16 := 10%N.
Definition DQUOTE : char16 := 34%N.
Definition SQUOTE : char16 := 39%N.
Definition BACKSLASH : char16 := 92%N.
Definition LOWER_N : char16 := 110%N.

(** The two code units the replacement of [splitCommand] looks for. *)
Definition BACKSLASH_N : list char16 := [BACKSLASH; LOWER_N].

(** The character class [\s] of ECMAScript regular expressions (no [u]
    flag): WhiteSpace and LineTerminator code units. *)
Definition is_space (c : char16) : bool :=
  ((9 <=? c) && (c <=? 13)        (* TAB LF VT FF CR *)
   || (c =? 32)                   (* SPACE *)
   || (c =? 160)                  (* NO-BREAK SPACE *)
   || (c =? 5760)                 (* U+1680 *)
   || ((8192 <=? c) && (c <=? 8202))  (* U+2000 .. U+200A *)
   || (c =? 8232) || (c =? 8233)  (* U+2028, U+2029 *)
   || (c =? 8239)                 (* U+202F *)
   || (c =? 8287)                 (* U+205F *)
   || (c =? 12288)                (* U+3000 *)
   || (c =? 65279))%N.            (* U+FEFF *)

(** The class of the first alternative: any code unit that is neither in
    [\s] nor a double quote nor a single quote. *)
Definition is_bare (c : char16) : bool :=
  negb (is_space c) && negb (c =? DQUOTE)%N && negb (c =? SQUOTE)%N.

(** The result array of a successful [regex.exec]: [m0] is the whole match,
    [m1] and [m2] the two capture groups ([None] is [undefined], a group
    that did not take part in the match). *)
Record MatchResult := mkMatch { m0 : str; m1 : ustr; m2 : ustr }.

(** Longest prefix whose code units satisfy [p], and what follows it. *)
Fixpoint span (p : char16 -> bool) (s : str) : str * str :=
  match s with
  | [] => ([], [])
  | c :: s' =>
      if p c then let (a, b) := span p s' in (c :: a, b) else ([], s)
  end.

(** First alternative, a greedy non-empty run of the class above, tried at
    the head of [s]. *)
Definition alt_bare (s : str) : option (MatchResult * str) :=
  match span is_bare s with
  | ([], _) => None
  | (w, rest) => Some (mkMatch w None None, rest)
  end.

(** A quoted alternative tried at the head of [s], for a quote code unit
    [q]: an opening [q], then the starred class (greedy) takes every code
    unit up to the next [q], then a closing [q]; without a closing [q] the
    alternative fails.  Returns the captured text and what follows the
    closing quote. *)
Definition quoted (q : char16) (s : str) : option (str * str) :=
  match s with
  | [] => None
  | c :: s' =>
      if (c =? q)%N then
        match span (fun d => negb (d =? q)%N) s' with
        | (inner, _ :: rest) => Some (inner, rest)
        | (_, []) => None
        end
      else None
  end.

(** Second alternative: double quote, group 1 (anything but double quotes),
    double quote. *)
Definition alt_dquote (s : str) : option (MatchResult * str) :=
  match quoted DQUOTE s with
  | Some (inner, rest) =>
      Some (mkMatch (DQUOTE :: inner ++ [DQUOTE]) (Some inner) None, rest)
  | None => None
  end.

(** Third alternative: single quote, group 2 (anything but single quotes),
    single quote. *)
Definition alt_squote (s : str) : option (MatchResult * str) :=
  match quoted SQUOTE s with
  | Some (inner, rest) =>
      Some (mkMatch (SQUOTE :: inner ++ [SQUOTE]) None (Some inner), rest)
  | None => None
  end.

(** The pattern of [splitCommand] tried at the head of [s]: the three
    alternatives in source order, the first that matches wins. *)
Definition match_here (s : str) : option (MatchResult * str) :=
  match alt_bare s with
  | Some r => Some r
  | None =>
      match alt_dquote s with
      | Some r => Some r
      | None => alt_squote s
      end
  end.

(** [regex.exec(command)] for the global pattern, with [s] the part of the
    subject from [lastIndex] on: the first position at which the pattern
    matches.  On success the second component is the subject from the new
    [lastIndex] on; [None] is the [null] result. *)
Fixpoint exec (s : str) : option (MatchResult * str) :=
  match match_here s with
  | Some r => Some r
  | None =>
      match s with
      | [] => None
      | _ :: s' => exec s'
      end
  end.

(** [arg.replace(/\\n/g, '\n')]: every backslash followed by [n], scanning
    left to right, becomes one line feed. *)
Fixpoint replace_backslash_n (s : str) : str :=
  match s with
  | [] => []
  | c :: s' =>
      match s' with
      | d :: s'' =>
          if (c =? BACKSLASH)%N && (d =? LOWER_N)%N
          then LF :: replace_backslash_n s''
          else c :: replace_backslash_n s'
      | [] => [c]
      end
  end.

End RegExp.

Import RegExp.

(** ** The tokenizer *)

Section ExecProgress.

Lemma span_app (p : char16 -> bool) (s a b : str) :
  span p s = (a, b) -> s = a ++ b.
Proof.
  revert a b; induction s as [|c s IH]; intros a b; simpl.
  - intros [= <- <-]; reflexivity.
  - destruct (p c).
    + destruct (span p s) as [a' b'] eqn:E.
      intros [= <- <-]. simpl. f_equal. now apply IH.
    + intros [= <- <-]; reflexivity.
Qed.

Lemma quoted_shape (q : char16) (s inner rest : str) :
  quoted q s = Some (inner, rest) ->
  s = q :: inner ++ q :: rest /\ forallb (fun d => negb (d =? q)%N) inner = true.
Proof.
  destruct s as [|c s]; simpl; [discriminate|].
  destruct (N.eqb_spec c q) as [->|]; [|discriminate].
  destruct (span _ s) as [a b] eqn:E.
  destruct b as [|d b]; [discriminate|].
  intros [= <- <-].
  assert (Hall : forall t x y, span (fun d => negb (d =? q)%N) t = (x, y) ->
            forallb (fun d => negb (d =? q)%N) x = true /\
            match y with [] => True | e :: _ => e = q end).
  { induction t as [|e t IH]; simpl; intros x y.
    - intros [= <- <-]; now split.
    - destruct (N.eqb_spec e q) as [->|Hne]; simpl.
      + intros [= <- <-]; now split.
      + destruct (span _ t) as [x' y'] eqn:E'. intros [= <- <-].
        destruct (IH _ _ eq_refl) as [H1 H2]. split; [|exact H2].
        simpl. rewrite H1. destruct (N.eqb_spec e q); [contradiction|reflexivity]. }
  destruct (Hall _ _ _ E) as [H1 H2]. subst d.
  split; [|exact H1]. f_equal. exact (span_app _ _ _ _ E).
Qed.

Lemma match_here_shorter (s : str) (m : MatchResult) (rest : str) :
  match_here s = Some (m, rest) -> length rest < length s.
Proof.
  unfold match_here, alt_bare, alt_dquote, alt_squote.
  destruct (span is_bare s) as [w r] eqn:E.
  apply span_app in E. destruct w as [|c w].
  - destruct (quoted DQUOTE s) as [[i r']|] eqn:Q.
    + intros [= <- <-]. apply quoted_shape in Q as [-> _].
      simpl. rewrite length_app. simpl. lia.
    + destruct (quoted SQUOTE s) as [[i r']|] eqn:Q'; [|discriminate].
      intros [= <- <-]. apply quoted_shape in Q' as [-> _].
      simpl. rewrite length_app. simpl. lia.
  - intros [= <- <-]. subst s. simpl. rewrite length_app. lia.
Qed.

(** Every successful [exec] moves [lastIndex] forward, so the loop of
    [splitCommand] terminates. *)
Lemma exec_shorter (s : str) (m : MatchResult) (rest : str) :
  exec s = Some (m, rest) -> length rest < length s.
Proof.
  induction s as [|c s IH].
  - discriminate.
  - cbn [exec]. destruct (match_here (c :: s)) as [[m' r']|] eqn:E.
    + intros [= <- <-]. now apply match_here_shorter in E.
    + intros H. apply IH in H. simpl. lia.
Qed.

End ExecProgress.

Definition inspect {A : Type} (a : A) : { b : A | a = b } := exist _ a eq_refl.

(** The [while ((match = regex.exec(command)) !== null)] loop of
    [splitCommand]: [args] is the array built so far, [s] the part of
    [command] from [regex.lastIndex] on. *)
Equations? split_loop (args : list str) (s : str) : list str
  by wf (length s) lt :=
  split_loop args s with inspect (exec s) := {
    | exist _ None _ => args
    | exist _ (Some (m, rest)) Heq =>
        let arg := or_default (or_else (m1 m) (m2 m)) (m0 m) in
        let processed := replace_backslash_n arg in
        split_loop (args ++ [processed]) rest }.
Proof. now apply exec_shorter in Heq. Qed.

Definition splitCommand (command : str) : list str := split_loop [] command.

(** [match[1] || match[2] || match[0]] *)
Definition arg_of (m : MatchResult) : str :=
  or_default (or_else (m1 m) (m2 m)) (m0 m).

(** The successive results of [regex.exec] on a subject, up to the [null]
    that ends the loop. *)
Equations? exec_all (s : str) : list MatchResult by wf (length s) lt :=
  exec_all s with inspect (exec s) := {
    | exist _ None _ => []
    | exist _ (Some (m, rest)) Heq => m :: exec_all rest }.
Proof. now apply exec_shorter in Heq. Qed.

(** ** The policy gate *)

(** A JavaScript [Set] of strings: its elements in insertion order, each
    once. *)
Module JsSet.

Definition t := list str.

(** [set.has(v)]; a set of strings holds no [undefined]. *)
Definition has (set : t) (v : ustr) : bool :=
  match v with
  | Some s => existsb (str_eqb s) set
  | None => false
  end.

(** [set.add(s)]: adding a present element changes nothing. *)
Definition add (set : t) (s : str) : t :=
  if has set (Some s) then set else set ++ [s].

(** [new Set(array)] adds the elements of the array in order. *)
Definition of_array (array : list str) : t := fold_left add array [].

(** [set.size] *)
Definition size (set : t) : nat := length set.

End JsSet.

(** The array literal passed to [new Set] in the source, entry by entry. *)
Definition BLACKLISTED_ENTRIES : list str :=
  [ lit "rm"; lit "rmdir"; lit "del";
    lit "format"; lit "mkfs"; lit "dd";
    lit "chmod"; lit "chown";
    lit "sudo"; lit "su";
    lit "exec"; lit "eval";
    lit "write"; lit "wall";
    lit "shutdown"; lit "reboot"; lit "init";
    lit "mkfs" ].

Definition BLACKLISTED_COMMANDS : JsSet.t := JsSet.of_array BLACKLISTED_ENTRIES.

(** [baseCommand] is declared a string; at run time the handler passes
    [undefined] when the token array is empty. *)
Definition validateCommand (baseCommand : ustr) : bool :=
  negb (JsSet.has BLACKLISTED_COMMANDS baseCommand).

(** ** The dispatch handler *)

(** A thrown value, as far as the handler observes it: an [Error] object
    made by [new Error(message)], or any other value a collaborator
    rejects with, given by the text [String] renders it to. *)
Inductive thrown :=
  | ErrorObject (message : str)
  | Foreign (rendered : str).

(** [String(error)]: for an [Error] object, [Error.prototype.toString]
    gives the name alone when the message is empty, and the name, a colon,
    a space and the message otherwise. *)
Definition String_ (error : thrown) : str :=
  match error with
  | ErrorObject [] => lit "Error"
  | ErrorObject (c :: message) => lit "Error: " ++ c :: message
  | Foreign rendered => rendered
  end.

(** A settled promise. *)
Inductive Await (A : Type) :=
  | Fulfilled (a : A)
  | Rejected (e : thrown).
Arguments Fulfilled {A} a.
Arguments Rejected {A} e.

Record CommandResult := { stdout : str; stderr : str }.

Record TextContent := { type : str; text : str; mimeType : str }.

Record CallToolResult := { content : list TextContent }.

(** What the handler reads of a request: [request.params.name] and
    [request.params.arguments?.command] ([None] when absent).  The handler
    only ever passes the latter to [regex.exec], which works on its string
    conversion. *)
Record CallToolRequest := { name : str; command_argument : ustr }.

(** The calls the handler makes to the pipeline stages, in order. *)
Inductive event :=
  | ResolveExistence (file : ustr)
  | EvaluatePolicy (file : ustr)
  | LaunchProcess (file : ustr) (args : list str).

(** How an [async] function body ends. *)
Inductive outcome (A : Type) :=
  | Returns (a : A)
  | Throws (e : thrown).
Arguments Returns {A} a.
Arguments Throws {A} e.

(** Computations of the handler: the calls made so far and how the
    computation ended. *)
Definition M (A : Type) : Type := list event * outcome A.

Definition ret {A} (a : A) : M A := ([], Returns a).

Definition throw {A} (e : thrown) : M A := ([], Throws e).

Definition bind {A B} (m : M A) (k : A -> M B) : M B :=
  match m with
  | (t, Returns a) => let (t', r) := k a in (t ++ t', r)
  | (t, Throws e) => (t, Throws e)
  end.

(** [try { body } catch (error) { handler }] *)
Definition try_catch {A} (body : M A) (handler : thrown -> M A) : M A :=
  match body with
  | (t, Returns a) => (t, Returns a)
  | (t, Throws e) => let (t', r) := handler e in (t ++ t', r)
  end.

(** Record a call to a pipeline stage. *)
Definition call (ev : event) : M unit := ([ev], Returns tt).

(** [await promise] *)
Definition await {A} (p : Await A) : M A :=
  match p with
  | Fulfilled a => ret a
  | Rejected e => throw e
  end.

Notation "x <- m ;; k" := (bind m (fun x => k))
  (at level 61, m at next level, right associativity).
Notation "m ;; k" := (bind m (fun _ => k))
  (at level 61, right associativity).

Definition trace {A} (m : M A) : list event := fst m.
Definition result {A} (m : M A) : outcome A := snd m.

Definition text_item (s : str) : TextContent :=
  {| type := lit "text"; text := s; mimeType := lit "text/plain" |}.

Section Handler.

(** The existence resolver: the truthiness of what [commandExists(file)]
    resolves to, or its rejection. *)
Variable commandExists : ustr -> Await bool.

(** The process executor, [execa(file, args, { shell: true, env })]. *)
Variable execa : ustr -> list str -> Await CommandResult.

(** The handler registered for [CallToolRequestSchema]. *)
Definition callToolHandler (request : CallToolRequest) : M CallToolResult :=
  if negb (str_eqb (name request) (lit "run_command")) then
    throw (ErrorObject (lit "Unknown tool: " ++ name request))
  else
    let command := command_argument request in
    try_catch
      ((* [regex.exec] converts its argument to a string *)
       let tokens := splitCommand (ToString command) in
       let shell_command := hd_error tokens in
       let args := tl tokens in
       call (ResolveExistence shell_command) ;;
       found <- await (commandExists shell_command) ;;
       if negb found then
         throw (ErrorObject (lit "Command not found: " ++ ToString shell_command))
       else
       call (EvaluatePolicy shell_command) ;;
       if negb (validateCommand shell_command) then
         throw (ErrorObject (lit "Command not allowed: " ++ ToString shell_command))
       else
       call (LaunchProcess shell_command args) ;;
       r <- await (execa shell_command args) ;;
       ret {| content :=
                [text_item (or_default (Some (stdout r)) (stderr r))] |})
      (fun error => ret {| content := [text_item (String_ error)] |}).

End Handler.

(** The promise interface of the package command-exists, which the handler
    imports as [commandExists]: the promise fulfils with the name itself
    when the host finds the command, and rejects with [null] when it does
    not; for [undefined] the package's file-system probe throws a
    [TypeError] inside the promise, which rejects with it.  [on_path]
    says which names the host finds, [invalid] is that [TypeError]. *)
Definition commandExists_package (on_path : str -> bool) (invalid : thrown) :
  ustr -> Await bool :=
  fun file =>
    match file with
    | None => Rejected invalid
    | Some name =>
        if on_path name then Fulfilled (truthy (Some name))
        else Rejected (Foreign (lit "null"))
    end.

(** A [run_command] request. *)
Definition run_command (command : ustr) : CallToolRequest :=
  {| name := lit "run_command"; command_argument := command |}.

Definition respond (s : str) : CallToolResult :=
  {| content := [text_item s] |}.

(** The executable and the arguments the handler derives from the
    [command] argument of a request. *)
Definition shell_command_of (command : ustr) : ustr :=
  hd_error (splitCommand (ToString command)).

Definition args_of (command : ustr) : list str :=
  tl (splitCommand (ToString command)).

(** The seventeen denied names. *)
Definition DENIED_NAMES : list str :=
  map lit
    [ "rm"; "rmdir"; "del"; "format"; "mkfs"; "dd"; "chmod"; "chown";
      "sudo"; "su"; "exec"; "eval"; "write"; "wall"; "shutdown"; "reboot";
      "init" ]%string.

(** Sample hosts, used to run the handler on concrete requests. *)
Module Sample.

(** A resolver that fulfils with a falsy value whatever the name. *)
Definition nothing_exists : ustr -> Await bool := fun _ => Fulfilled false.

(** A resolver that fulfils with whether the name is among the given
    ones. *)
Definition only_exist (names : list str) : ustr -> Await bool :=
  fun file => Fulfilled (JsSet.has names file).

(** A search path holding exactly the given names. *)
Definition on_path (names : list str) : str -> bool :=
  fun name => existsb (str_eqb name) names.

(** The [TypeError] of the file-system probe on [undefined], as Node
    renders it. *)
Definition invalid_path : thrown :=
  Foreign (lit "TypeError [ERR_INVALID_ARG_TYPE]: The " ++ [DQUOTE]
             ++ lit "path" ++ [DQUOTE]
             ++ lit " argument must be of type string or an instance of Buffer or URL. Received undefined").

(** An executor that fails to spawn anything. *)
Definition spawn_fails : ustr -> list str -> Await CommandResult :=
  fun _ _ => Rejected (Foreign (lit "Error: spawn failed")).

Fixpoint join_spaces (args : list str) : str :=
  match args with
  | [] => []
  | a :: rest =>
      match rest with
      | [] => a
      | _ :: _ => a ++ 32%N :: join_spaces rest
      end
  end.

(** An executor that behaves like [echo] whatever the file: its standard
    output is the arguments joined by spaces. *)
Definition echoes : ustr -> list str -> Await CommandResult :=
  fun _ args => Fulfilled {| stdout := join_spaces args; stderr := [] |}.

End Sample.

(** ** Notions used to state further properties of the tokenizer *)

(** [s] holds no code unit [q]. *)
Definition free_of (q : char16) (s : str) : bool :=
  forallb (fun d => negb (d =? q)%N) s.

(** [s] begins with a code unit of the first alternative's class. *)
Definition starts_bare (s : str) : bool :=
  match s with
  | c :: _ => is_bare c
  | [] => false
  end.

(** Reference splitter: the maximal runs of code units outside [\s], in
    order; [cur] is the run being read. *)
Fixpoint words_from (cur s : str) : list str :=
  match s with
  | [] => match cur with [] => [] | _ :: _ => [cur] end
  | c :: s' =>
      if is_space c
      then match cur with [] => [] | _ :: _ => [cur] end ++ words_from [] s'
      else words_from (cur ++ [c]) s'
  end.

Definition words (s : str) : list str := words_from [] s.

(** A result of [exec] on a subject, seen on the subject extended by [a]. *)
Definition shift_rest (a : str) (r : option (MatchResult * str)) :
  option (MatchResult * str) :=
  match r with
  | Some (m, rest) => Some (m, rest ++ a)
  | None => None
  end.

(** ** The tool listing *)

(** The answer of the [ListToolsRequestSchema] handler. *)
Module ListTools.

Record Schema := { type : str; properties : list (str * str) }.

Record Tool := { name : str; description : str; inputSchema : Schema }.

Definition listToolsHandler : list Tool :=
  [ {| name := lit "run_command";
       description := lit "Run a shell command";
       inputSchema := {| type := lit "object";
                         properties := [(lit "command", lit "string")] |} |} ].

End ListTools.

(** ** The configuration bootstrap ([updateConfig], [getConfigPath], [main]) *)

Module Config.

#[local] Unset Elimination Schemes.

(** A value produced by [JSON.parse], as the program then mutates it.  An
    array can be given named properties next to its elements ([extra]);
    an object is its own properties in property order.  Keys are unique in
    both lists. *)
Inductive value :=
  | VNull
  | VBool (b : bool)
  | VNum (x : spec_float)
  | VStr (s : str)
  | VArr (elems : list value) (extra : list (str * value))
  | VObj (props : list (str * value)).

#[local] Set Elimination Schemes.

(** What [updateConfig] can see thrown inside its [try]: a [TypeError]
    made by the engine, or a value thrown by a collaborator. *)
Inductive exn :=
  | TypeError
  | Raised (e : thrown).

(** Truthiness of an expression that is [undefined] or a value. *)
Definition truthy_value (v : option value) : bool :=
  match v with
  | None => false
  | Some VNull => false
  | Some (VBool b) => b
  | Some (VNum (S754_zero _)) => false
  | Some (VNum S754_nan) => false
  | Some (VNum _) => true
  | Some (VStr s) => match s with [] => false | _ :: _ => true end
  | Some (VArr _ _) => true
  | Some (VObj _) => true
  end.

Fixpoint lookup (k : str) (props : list (str * value)) : option value :=
  match props with
  | [] => None
  | (k', v) :: rest => if str_eqb k k' then Some v else lookup k rest
  end.

(** Assignment to a named property of an object: an existing property
    keeps its place, a new one goes last. *)
Fixpoint assign (k : str) (v : value) (props : list (str * value)) :
  list (str * value) :=
  match props with
  | [] => [(k, v)]
  | (k', v') :: rest =>
      if str_eqb k k' then (k, v) :: rest else (k', v') :: assign k v rest
  end.

(** [target.k] for a key [k] that no prototype defines and that is not an
    array index: [undefined] ([None]) on primitives and where absent, a
    [TypeError] on [null]. *)
Definition get_property (k : str) (target : value) : exn + option value :=
  match target with
  | VNull => inl TypeError
  | VBool _ | VNum _ | VStr _ => inr None
  | VArr _ extra => inr (lookup k extra)
  | VObj props => inr (lookup k props)
  end.

(** [target.k = v] for such a key, in strict mode (the file is a module):
    a [TypeError] on [null] and on primitives. *)
Definition set_property (k : str) (v : value) (target : value) : exn + value :=
  match target with
  | VNull | VBool _ | VNum _ | VStr _ => inl TypeError
  | VArr elems extra => inr (VArr elems (assign k v extra))
  | VObj props => inr (VObj (assign k v props))
  end.

Definition MCP_SERVERS : str := lit "mcpServers".
Definition SHELL_SERVER : str := lit "shell-server".

(** The object literal [{ command: scriptPath }]. *)
Definition server_entry (scriptPath : str) : value :=
  VObj [(lit "command", VStr scriptPath)].

(** [a || {}] *)
Definition or_empty_object (a : option value) : value :=
  match a with
  | Some v => if truthy_value a then v else VObj []
  | None => VObj []
  end.

(** The two assignments of [updateConfig]:
    [config.mcpServers = config.mcpServers || {}] and
    [config.mcpServers['shell-server'] = { command: scriptPath }].  The
    second one mutates the object that [config.mcpServers] refers to, so
    [config] sees the change. *)
Definition register_server (scriptPath : str) (config : value) : exn + value :=
  match get_property MCP_SERVERS config with
  | inl e => inl e
  | inr current =>
      match set_property MCP_SERVERS (or_empty_object current) config with
      | inl e => inl e
      | inr config1 =>
          match get_property MCP_SERVERS config1 with
          | inl e => inl e
          | inr None => inl TypeError
          | inr (Some servers) =>
              match set_property SHELL_SERVER (server_entry scriptPath)
                      servers with
              | inl e => inl e
              | inr servers1 => set_property MCP_SERVERS servers1 config1
              end
          end
      end
  end.

(** The process and its surroundings, as [updateConfig] and [main] read
    them. *)
Record Host := {
  argv1 : str;                         (* process.argv[1] *)
  npm_command : ustr;                  (* process.env.npm_command *)
  env_underscore : ustr;               (* process.env._ *)
  platform : str;                      (* process.platform *)
  homedir : str;                       (* os.homedir() *)
  APPDATA : ustr;                      (* process.env.APPDATA *)
  path_join : list str -> str;         (* path.join(...) *)
  path_dirname : str -> str;           (* path.dirname(p) *)
  readFileSync : str -> thrown + str;  (* inl e: it throws e *)
  JSON_parse : str -> thrown + value;  (* inl e: it throws e *)
  JSON_stringify : value -> str;       (* JSON.stringify(v, null, 2) *)
  existsSync : str -> bool;
  mkdirSync : str -> option thrown;    (* Some e: it throws e *)
  writeFileSync : str -> str -> option thrown;
  connect : option thrown              (* server.connect(transport) *)
}.

(** What the bootstrap does to the outside. *)
Inductive io :=
  | ConsoleLog (args : list str)
  | ConsoleError (label : str) (error : option exn)
  | ReadFile (path : str)
  | ExistsSync (path : str)
  | MkdirRecursive (path : str)
  | WriteFile (path content : str)
  | CreateServer
  | ConnectTransport.

(** How a function ends: normally, by throwing, or with the process
    exiting. *)
Inductive completion (A : Type) :=
  | Done (a : A)
  | Raise (e : exn)
  | Exit (code : nat).
Arguments Done {A} a.
Arguments Raise {A} e.
Arguments Exit {A} code.

Definition IO (A : Type) : Type := list io * completion A.

Definition pure {A} (a : A) : IO A := ([], Done a).

Definition raise {A} (e : exn) : IO A := ([], Raise e).

(** [process.exit(code)] *)
Definition exit {A} (code : nat) : IO A := ([], Exit code).

Definition emit (ev : io) : IO unit := ([ev], Done tt).

Definition seq {A B} (m : IO A) (k : A -> IO B) : IO B :=
  match m with
  | (t, Done a) => let (t', r) := k a in (t ++ t', r)
  | (t, Raise e) => (t, Raise e)
  | (t, Exit c) => (t, Exit c)
  end.

(** [try { body } catch (err) { handler }]; an exit is not caught. *)
Definition catch {A} (body : IO A) (handler : exn -> IO A) : IO A :=
  match body with
  | (t, Raise e) => let (t', r) := handler e in (t ++ t', r)
  | other => other
  end.

(** A call that returns nothing and may throw. *)
Definition may_throw (r : option thrown) : IO unit :=
  match r with
  | None => pure tt
  | Some e => raise (Raised e)
  end.

(** A call that returns a value and may throw. *)
Definition or_throw {A} (r : thrown + A) : IO A :=
  match r with
  | inr a => pure a
  | inl e => raise (Raised e)
  end.

Definition of_sum {A} (r : exn + A) : IO A :=
  match r with
  | inl e => raise e
  | inr a => pure a
  end.

Declare Scope io_scope.
Delimit Scope io_scope with io.
Notation "x <- m ;; k" := (seq m (fun x => k))
  (at level 61, m at next level, right associativity) : io_scope.
Notation "m ;; k" := (seq m (fun _ => k))
  (at level 61, right associativity) : io_scope.
#[local] Open Scope io_scope.

Definition events {A} (m : IO A) : list io := fst m.
Definition ending {A} (m : IO A) : completion A := snd m.

Definition CONFIG_FILE : str := lit "claude_desktop_config.json".

Definition getConfigPath (h : Host) : thrown + str :=
  if str_eqb (platform h) (lit "darwin") then
    inr (path_join h [homedir h; lit "Library"; lit "Application Support";
                      lit "Claude"; CONFIG_FILE])
  else if str_eqb (platform h) (lit "win32") then
    inr (path_join h [or_default (APPDATA h) []; lit "Claude"; CONFIG_FILE])
  else
    inl (ErrorObject (lit "Unsupported platform")).

Definition NPX_MARK : str := lit "/_npx/".

Definition isNpx (h : Host) : bool :=
  includes NPX_MARK (argv1 h)
  || match npm_command h with
     | Some c => str_eqb c (lit "exec")
     | None => false
     end
  || match env_underscore h with
     | Some u => includes NPX_MARK u
     | None => false
     end.

Definition updateConfig (h : Host) : IO unit :=
  if negb (isNpx h) then
    emit (ConsoleLog [lit "Not running via npx"])
  else
    let scriptPath := argv1 h in
    configPath <- or_throw (getConfigPath h) ;;
    catch
      (config <- catch
                   (emit (ReadFile configPath) ;;
                    content <- or_throw (readFileSync h configPath) ;;
                    or_throw (JSON_parse h content))
                   (fun _ =>
                      emit (ConsoleLog [lit "Creating new config file"]) ;;
                      pure (VObj [])) ;;
       config' <- of_sum (register_server scriptPath config) ;;
       let configDir := path_dirname h configPath in
       emit (ExistsSync configDir) ;;
       (if negb (existsSync h configDir) then
          emit (MkdirRecursive configDir) ;;
          may_throw (mkdirSync h configDir)
        else pure tt) ;;
       emit (WriteFile configPath (JSON_stringify h config')) ;;
       may_throw (writeFileSync h configPath (JSON_stringify h config')) ;;
       emit (ConsoleLog [lit "Updated config at:"; configPath]) ;;
       emit (ConsoleLog [lit "Added server with command:"; scriptPath]))
      (fun err =>
         emit (ConsoleError (lit "Error updating config:") (Some err)) ;;
         exit 1).

(** [main] with the [catch] attached to its promise. *)
Definition main (h : Host) : IO unit :=
  catch
    (updateConfig h ;;
     emit CreateServer ;;
     emit ConnectTransport ;;
     may_throw (connect h) ;;
     emit (ConsoleError (lit "MCP server running on stdio") None))
    (fun error =>
       emit (ConsoleError (lit "Server error:") (Some error)) ;;
       exit 1).

(** *** Notions used to state the properties of the bootstrap *)

(** Whether a value can take named properties. *)
Definition is_container (v : value) : bool :=
  match v with
  | VArr _ _ | VObj _ => true
  | _ => false
  end.

(** The named properties of a container, and a container with them
    replaced. *)
Definition named (v : value) : list (str * value) :=
  match v with
  | VArr _ extra => extra
  | VObj props => props
  | _ => []
  end.

Definition with_named (v : value) (props : list (str * value)) : value :=
  match v with
  | VArr elems _ => VArr elems props
  | VObj _ => VObj props
  | other => other
  end.

Definition CREATING : io := ConsoleLog [lit "Creating new config file"].
Definition FAILED (e : exn) : io :=
  ConsoleError (lit "Error updating config:") (Some e).

(** What the inner [try] of [updateConfig] leaves in [config]: the parsed
    file, or nothing when reading or parsing threw. *)
Definition loaded (h : Host) (p : str) : option value :=
  match readFileSync h p with
  | inl _ => None
  | inr content =>
      match JSON_parse h content with
      | inl _ => None
      | inr v => Some v
      end
  end.

(** The fresh configuration: only this server. *)
Definition fresh_config (scriptPath : str) : value :=
  VObj [(MCP_SERVERS, VObj [(SHELL_SERVER, server_entry scriptPath)])].

(** Sample hosts. *)
Fixpoint join_slash (parts : list str) : str :=
  match parts with
  | [] => []
  | a :: rest =>
      match rest with
      | [] => a
      | _ :: _ => a ++ 47%N :: join_slash rest
      end
  end.

Definition sample_host (os : str) (file : thrown + str)
    (parse : str -> thrown + value) : Host :=
  {| argv1 := lit "/home/u/.npm/_npx/1f2e/node_modules/.bin/shell-server";
     npm_command := Some (lit "exec");
     env_underscore := None;
     platform := os;
     homedir := lit "/Users/u";
     APPDATA := None;
     path_join := join_slash;
     path_dirname := fun _ => lit "/Users/u/Library/Application Support/Claude";
     readFileSync := fun _ => file;
     JSON_parse := parse;
     JSON_stringify := fun v => match v with
                                | VObj props => concat (map fst props)
                                | _ => []
                                end;
     existsSync := fun _ => true;
     mkdirSync := fun _ => None;
     writeFileSync := fun _ _ => None;
     connect := None |}.

Definition ENOENT : thrown := Foreign (lit "Error: ENOENT: no such file").

End Config.

(** ** Properties of the tokenizer *)

Lemma str_length_ind (P : str -> Prop) :
  (forall s, (forall s', length s' < length s -> P s') -> P s) ->
  forall s, P s.
Proof.
  intros step s. remember (length s) as n eqn:En. revert s En.
  induction n as [n IH] using lt_wf_ind.
  intros s ->. apply step. intros s' Hlt. exact (IH _ Hlt s' eq_refl).
Qed.

Ltac rewrite_exec :=
  match goal with
  | H : exec ?s = _ |- context [exec ?s] => rewrite H
  end.

Lemma split_loop_step (args : list str) (s : str) :
  split_loop args s =
  match exec s with
  | None => args
  | Some (m, rest) => split_loop (args ++ [replace_backslash_n (arg_of m)]) rest
  end.
Proof.
  funelim (split_loop args s); rewrite_exec; reflexivity.
Qed.

Lemma exec_all_step (s : str) :
  exec_all s =
  match exec s with
  | None => []
  | Some (m, rest) => m :: exec_all rest
  end.
Proof.
  funelim (exec_all s); rewrite_exec; reflexivity.
Qed.

(** The array built so far is only ever extended at its end. *)
Lemma split_loop_acc (s : str) :
  forall args, split_loop args s = args ++ split_loop [] s.
Proof.
  induction s as [s IH] using str_length_ind. intros args.
  rewrite (split_loop_step args s), (split_loop_step [] s).
  destruct (exec s) as [[m rest]|] eqn:E.
  - pose proof (exec_shorter _ _ _ E) as Hlt.
    rewrite (IH rest Hlt (args ++ _)), (IH rest Hlt ([] ++ _)).
    rewrite <- app_assoc. reflexivity.
  - now rewrite app_nil_r.
Qed.

Lemma splitCommand_step (s : str) :
  splitCommand s =
  match exec s with
  | None => []
  | Some (m, rest) => replace_backslash_n (arg_of m) :: splitCommand rest
  end.
Proof.
  unfold splitCommand. rewrite split_loop_step.
  destruct (exec s) as [[m rest]|]; [|reflexivity].
  now rewrite split_loop_acc.
Qed.

Lemma splitCommand_map (s : str) :
  splitCommand s = map (fun m => replace_backslash_n (arg_of m)) (exec_all s).
Proof.
  induction s as [s IH] using str_length_ind.
  rewrite splitCommand_step, exec_all_step.
  destruct (exec s) as [[m rest]|] eqn:E; [|reflexivity].
  simpl. f_equal. apply IH. now apply exec_shorter in E.
Qed.

Lemma is_space_not_quote (c : char16) :
  is_space c = true -> (c =? DQUOTE)%N = false /\ (c =? SQUOTE)%N = false.
Proof.
  intros H. split.
  - destruct (N.eqb_spec c DQUOTE) as [->|]; [discriminate H|reflexivity].
  - destruct (N.eqb_spec c SQUOTE) as [->|]; [discriminate H|reflexivity].
Qed.

Lemma match_here_space (c : char16) (s : str) :
  is_space c = true -> match_here (c :: s) = None.
Proof.
  intros H. destruct (is_space_not_quote c H) as [Hd Hs].
  unfold match_here, alt_bare, alt_dquote, alt_squote, quoted, is_bare.
  cbn [span]. rewrite H, Hd, Hs. reflexivity.
Qed.

(** On a subject made of [\s] code units only, [exec] finds no match. *)
Lemma exec_spaces (s : str) :
  forallb is_space s = true -> exec s = None.
Proof.
  induction s as [|c s IH]; [reflexivity|].
  cbn [forallb]. intros [Hc Hs]%andb_prop.
  cbn [exec]. rewrite (match_here_space c s Hc). now apply IH.
Qed.

Lemma splitCommand_spaces (s : str) :
  forallb is_space s = true -> splitCommand s = [].
Proof.
  intros H. rewrite splitCommand_step. now rewrite (exec_spaces s H).
Qed.

(** *** The tokenizer on sample inputs *)

Example split_plain :
  splitCommand (lit "ls  -l" ++ [TAB] ++ lit "/tmp")
  = [lit "ls"; lit "-l"; lit "/tmp"].
Proof. vm_compute. reflexivity. Qed.

Example split_single_quoted :
  splitCommand (lit "printf '%s %s' a") = [lit "printf"; lit "%s %s"; lit "a"].
Proof. vm_compute. reflexivity. Qed.

(** A quoted run need not be preceded by whitespace to become a token of
    its own. *)
Example split_adjacent_quote :
  splitCommand (lit "a'b c'd") = [lit "a"; lit "b c"; lit "d"].
Proof. vm_compute. reflexivity. Qed.

(** An opening quote without its closing quote matches no alternative and
    is skipped. *)
Example split_unclosed_quote :
  splitCommand (lit "it's here") = [lit "it"; lit "s"; lit "here"].
Proof. vm_compute. reflexivity. Qed.

(** An absent [command] argument is tokenized as the text [undefined]. *)
Example split_undefined :
  splitCommand (ToString None) = [lit "undefined"].
Proof. vm_compute. reflexivity. Qed.

(** *** The backslash-n replacement *)

Lemma replace_backslash_n_cons (c : char16) (s : str) :
  replace_backslash_n (c :: s) =
  match s with
  | d :: s' =>
      if (c =? BACKSLASH)%N && (d =? LOWER_N)%N
      then LF :: replace_backslash_n s'
      else c :: replace_backslash_n s
  | [] => [c]
  end.
Proof. destruct s; reflexivity. Qed.

(** Every occurrence is replaced: an occurrence anywhere in the subject
    splits the result into the replaced left part, one line feed and the
    replaced right part. *)
Lemma replace_backslash_n_app (a b : str) :
  replace_backslash_n (a ++ BACKSLASH_N ++ b) =
  replace_backslash_n a ++ [LF] ++ replace_backslash_n b.
Proof.
  induction a as [a IH] using str_length_ind.
  destruct a as [|c a]; [reflexivity|].
  cbn [app]. rewrite !replace_backslash_n_cons.
  destruct a as [|d a].
  - cbn [app BACKSLASH_N].
    replace (BACKSLASH =? LOWER_N)%N with false by reflexivity.
    rewrite andb_false_r. reflexivity.
  - cbn [app]. destruct ((c =? BACKSLASH)%N && (d =? LOWER_N)%N).
    + cbn [app]. f_equal. apply IH. simpl. lia.
    + cbn [app]. f_equal. apply (IH (d :: a)). simpl. lia.
Qed.

(** Nothing else changes. *)
Lemma replace_backslash_n_id (s : str) :
  includes BACKSLASH_N s = false -> replace_backslash_n s = s.
Proof.
  induction s as [|c s IH]; [reflexivity|].
  cbn [includes]. intros [Hp Hs]%orb_false_elim.
  rewrite replace_backslash_n_cons. destruct s as [|d s]; [reflexivity|].
  cbn [startsWith BACKSLASH_N] in Hp. rewrite andb_true_r in Hp.
  rewrite (N.eqb_sym c), (N.eqb_sym d) in *. rewrite Hp.
  f_equal. now apply IH.
Qed.

(** No occurrence is left in the result. *)
Lemma replace_backslash_n_clean (s : str) :
  includes BACKSLASH_N (replace_backslash_n s) = false.
Proof.
  induction s as [s IH] using str_length_ind.
  destruct s as [|c s]; [reflexivity|].
  rewrite replace_backslash_n_cons. destruct s as [|d s].
  { cbn [includes startsWith BACKSLASH_N]. now rewrite andb_false_r. }
  destruct ((c =? BACKSLASH)%N && (d =? LOWER_N)%N) eqn:E.
  - cbn [includes startsWith BACKSLASH_N].
    replace (BACKSLASH =? LF)%N with false by reflexivity.
    cbn [andb orb]. apply IH. simpl. lia.
  - assert (Hrest : includes BACKSLASH_N (replace_backslash_n (d :: s)) = false)
      by (apply IH; simpl; lia).
    cbn [includes]. rewrite Hrest, orb_false_r.
    cbn [startsWith BACKSLASH_N].
    destruct (N.eqb_spec BACKSLASH c) as [<-|]; [|reflexivity].
    cbn [andb]. rewrite N.eqb_refl in E. cbn [andb] in E.
    rewrite replace_backslash_n_cons.
    destruct s as [|e s].
    + rewrite andb_true_r, N.eqb_sym. exact E.
    + destruct ((d =? BACKSLASH)%N && (e =? LOWER_N)%N) eqn:E'.
      * reflexivity.
      * rewrite andb_true_r, N.eqb_sym. exact E.
Qed.

(** ** Properties of strings *)

Lemma str_eqb_spec (a b : str) : reflect (a = b) (str_eqb a b).
Proof.
  unfold str_eqb. destruct (list_eq_dec N.eq_dec a b); now constructor.
Qed.

Lemma str_eqb_refl (a : str) : str_eqb a a = true.
Proof. now destruct (str_eqb_spec a a). Qed.

Lemma startsWith_app (p s : str) : startsWith p (p ++ s) = true.
Proof.
  induction p as [|c p IH]; [reflexivity|].
  cbn [app startsWith]. now rewrite N.eqb_refl, IH.
Qed.

Lemma includes_app_r (p a s : str) :
  includes p s = true -> includes p (a ++ s) = true.
Proof.
  intros H. induction a as [|c a IH]; [exact H|].
  cbn [app includes]. rewrite IH. apply orb_true_r.
Qed.

Lemma includes_infix (p a b : str) : includes p (a ++ p ++ b) = true.
Proof.
  apply includes_app_r.
  pose proof (startsWith_app p b) as H.
  destruct (p ++ b); cbn [includes]; now rewrite H.
Qed.

(** ** Properties of the policy gate *)

Lemma JsSet_has_In (set : JsSet.t) (s : str) :
  JsSet.has set (Some s) = true <-> In s set.
Proof.
  unfold JsSet.has. rewrite existsb_exists. split.
  - intros [x [Hin Heq]]. now destruct (str_eqb_spec s x) as [->|].
  - intros Hin. exists s. split; [exact Hin|apply str_eqb_refl].
Qed.

Lemma BLACKLISTED_COMMANDS_elements : BLACKLISTED_COMMANDS = DENIED_NAMES.
Proof. vm_compute. reflexivity. Qed.

Lemma validateCommand_false_iff (s : str) :
  validateCommand (Some s) = false <-> In s DENIED_NAMES.
Proof.
  unfold validateCommand. rewrite negb_false_iff, JsSet_has_In.
  now rewrite BLACKLISTED_COMMANDS_elements.
Qed.

Lemma validateCommand_undefined : validateCommand None = true.
Proof. reflexivity. Qed.

(** ** Properties of the handler *)

Section HandlerFacts.

Variable commandExists : ustr -> Await bool.
Variable execa : ustr -> list str -> Await CommandResult.

Let handler := callToolHandler commandExists execa.

(** The handler on a [run_command] request, by what the collaborators
    answer. *)
Lemma handler_run_command (command : ustr) :
  let tokens := splitCommand (ToString command) in
  let shell_command := hd_error tokens in
  let args := tl tokens in
  handler (run_command command) =
  match commandExists shell_command with
  | Rejected e =>
      ([ResolveExistence shell_command], Returns (respond (String_ e)))
  | Fulfilled false =>
      ([ResolveExistence shell_command],
       Returns (respond (lit "Error: Command not found: "
                           ++ ToString shell_command)))
  | Fulfilled true =>
      if validateCommand shell_command then
        ([ResolveExistence shell_command; EvaluatePolicy shell_command;
          LaunchProcess shell_command args],
         Returns (respond
           match execa shell_command args with
           | Fulfilled r => or_default (Some (stdout r)) (stderr r)
           | Rejected e => String_ e
           end))
      else
        ([ResolveExistence shell_command; EvaluatePolicy shell_command],
         Returns (respond (lit "Error: Command not allowed: "
                             ++ ToString shell_command)))
  end.
Proof.
  intros tokens shell_command args.
  unfold handler, callToolHandler, run_command. cbn [name command_argument].
  rewrite str_eqb_refl. cbn [negb].
  fold tokens. fold shell_command. fold args.
  destruct (commandExists shell_command) as [[|]|e]; try reflexivity.
  destruct (validateCommand shell_command); try reflexivity.
  destruct (execa shell_command args) as [r|e]; reflexivity.
Qed.

Lemma handler_unknown_tool (request : CallToolRequest) :
  name request <> lit "run_command" ->
  handler request =
  ([], Throws (ErrorObject (lit "Unknown tool: " ++ name request))).
Proof.
  intros Hne. unfold handler, callToolHandler.
  destruct (str_eqb_spec (name request) (lit "run_command")); [contradiction|].
  reflexivity.
Qed.

(** A [run_command] request always gets a one-item text response. *)
Lemma handler_run_command_returns (command : ustr) :
  exists s, result (handler (run_command command)) = Returns (respond s).
Proof.
  rewrite handler_run_command.
  destruct (commandExists _) as [[|]|e]; [|eexists; reflexivity..].
  destruct (validateCommand _); eexists; reflexivity.
Qed.

(** A rejection by the resolver is caught and reported as text; neither
    the policy gate nor the executor is reached. *)
Lemma handler_resolver_rejects (command : ustr) (e : thrown) :
  commandExists (shell_command_of command) = Rejected e ->
  handler (run_command command) =
  ([ResolveExistence (shell_command_of command)],
   Returns (respond (String_ e))).
Proof.
  unfold shell_command_of. intros H. now rewrite handler_run_command, H.
Qed.

(** A failure of the executor is caught and reported as text. *)
Lemma handler_executor_rejects (command : ustr) (e : thrown) :
  commandExists (shell_command_of command) = Fulfilled true ->
  validateCommand (shell_command_of command) = true ->
  execa (shell_command_of command) (args_of command) = Rejected e ->
  result (handler (run_command command)) = Returns (respond (String_ e)).
Proof.
  unfold shell_command_of, args_of. intros H1 H2 H3.
  now rewrite handler_run_command, H1, H2, H3.
Qed.

End HandlerFacts.

(** ** The claims *)

(** C1, as stated, fails: on a host whose search path does not hold [del],
    the request [del notes.txt] has a denylisted first token, yet the
    resolver is consulted first and its rejection is what the handler
    answers; the response text does not contain [Command not allowed]. *)
Lemma denylisted_missing_is_not_reported_as_denied :
  shell_command_of (Some (lit "del notes.txt")) = Some (lit "del") /\
  validateCommand (Some (lit "del")) = false /\
  callToolHandler
    (commandExists_package (Sample.on_path [lit "echo"]) Sample.invalid_path)
    Sample.spawn_fails (run_command (Some (lit "del notes.txt")))
  = ([ResolveExistence (Some (lit "del"))], Returns (respond (lit "null"))) /\
  includes (lit "Command not allowed") (lit "null") = false.
Proof. vm_compute. repeat split; reflexivity. Qed.

(** C1, amended: when the first token of a [run_command] request is a
    denylisted name, the child process is never launched and the handler
    returns a one-item text response; if the name resolves on the search
    path the text is [Error: Command not allowed: <name>]. *)
Theorem denylisted_never_launched
    (commandExists : ustr -> Await bool)
    (execa : ustr -> list str -> Await CommandResult)
    (command : ustr) (file : str) :
  shell_command_of command = Some file ->
  validateCommand (Some file) = false ->
  (forall f a,
     ~ In (LaunchProcess f a)
          (trace (callToolHandler commandExists execa (run_command command)))) /\
  (exists s,
     result (callToolHandler commandExists execa (run_command command))
     = Returns (respond s)) /\
  (commandExists (Some file) = Fulfilled true ->
     result (callToolHandler commandExists execa (run_command command))
     = Returns (respond (lit "Error: Command not allowed: " ++ file)) /\
     includes (lit "Command not allowed")
              (lit "Error: Command not allowed: " ++ file) = true).
Proof.
  unfold shell_command_of. intros Hfile Hdenied.
  rewrite handler_run_command. rewrite Hfile, Hdenied.
  split; [|split].
  - intros f a. destruct (commandExists (Some file)) as [[|]|e];
      cbn [trace fst In]; intuition discriminate.
  - destruct (commandExists (Some file)) as [[|]|e]; eexists; reflexivity.
  - intros ->. split; [reflexivity|].
    apply (includes_infix (lit "Command not allowed") (lit "Error: ")
             (lit ": " ++ file)).
Qed.

Lemma denylisted_never_launched_witness :
  shell_command_of (Some (lit "rm -rf /tmp/x")) = Some (lit "rm") /\
  validateCommand (Some (lit "rm")) = false /\
  commandExists_package (Sample.on_path [lit "rm"; lit "echo"])
    Sample.invalid_path (Some (lit "rm")) = Fulfilled true /\
  result (callToolHandler
            (commandExists_package (Sample.on_path [lit "rm"; lit "echo"])
               Sample.invalid_path)
            Sample.echoes (run_command (Some (lit "rm -rf /tmp/x"))))
  = Returns (respond (lit "Error: Command not allowed: " ++ lit "rm")).
Proof.
  assert (H1 : shell_command_of (Some (lit "rm -rf /tmp/x")) = Some (lit "rm"))
    by (vm_compute; reflexivity).
  assert (H2 : validateCommand (Some (lit "rm")) = false)
    by (vm_compute; reflexivity).
  assert (H3 : commandExists_package (Sample.on_path [lit "rm"; lit "echo"])
                 Sample.invalid_path (Some (lit "rm")) = Fulfilled true)
    by (vm_compute; reflexivity).
  split; [exact H1|]. split; [exact H2|]. split; [exact H3|].
  exact (proj1 (proj2 (proj2
           (denylisted_never_launched
              (commandExists_package (Sample.on_path [lit "rm"; lit "echo"])
                 Sample.invalid_path)
              Sample.echoes
              (Some (lit "rm -rf /tmp/x")) (lit "rm") H1 H2)) H3)).
Defined.

(** C2, the code at a failing input: on a host whose search path does not
    hold [frobnicate9], the resolver's promise rejects with [null] instead
    of fulfilling with a falsy value, so the handler never reaches its
    [Command not found] throw; the rejection is caught and the response
    text is [null], which does not contain [Command not found].  Only the
    resolver is called. *)
Theorem missing_command_reports_null :
  shell_command_of (Some (lit "frobnicate9 --now"))
  = Some (lit "frobnicate9") /\
  commandExists_package (Sample.on_path [lit "echo"]) Sample.invalid_path
    (Some (lit "frobnicate9"))
  = Rejected (Foreign (lit "null")) /\
  callToolHandler
    (commandExists_package (Sample.on_path [lit "echo"]) Sample.invalid_path)
    Sample.echoes (run_command (Some (lit "frobnicate9 --now")))
  = ([ResolveExistence (Some (lit "frobnicate9"))],
     Returns (respond (lit "null"))) /\
  includes (lit "Command not found") (lit "null") = false.
Proof. vm_compute. repeat split; reflexivity. Qed.

(** C3, the code on blank commands: a command string that is empty or made
    of whitespace only tokenizes to the empty sequence, so the executable
    handed to the resolver is [undefined]; the resolver's promise rejects
    with its [TypeError], the handler catches it and returns, without
    throwing, the one-item response whose text is that error rendered by
    [String], not a [Command not found] message. *)
Theorem whitespace_command_reports_resolver_rejection
    (on_path : str -> bool) (invalid : thrown)
    (execa : ustr -> list str -> Await CommandResult)
    (command : str) :
  forallb is_space command = true ->
  splitCommand command = [] /\
  shell_command_of (Some command) = None /\
  callToolHandler (commandExists_package on_path invalid) execa
    (run_command (Some command))
  = ([ResolveExistence None], Returns (respond (String_ invalid))).
Proof.
  intros Hspace. pose proof (splitCommand_spaces command Hspace) as Hnil.
  split; [exact Hnil|]. split.
  - unfold shell_command_of. cbn [ToString]. now rewrite Hnil.
  - rewrite handler_run_command. cbn [ToString].
    rewrite Hnil. reflexivity.
Qed.

Lemma whitespace_command_reports_resolver_rejection_witness :
  forallb is_space [32; 9; 10; 160; 32]%N = true /\
  callToolHandler
    (commandExists_package (Sample.on_path [lit "echo"]) Sample.invalid_path)
    Sample.echoes (run_command (Some [32; 9; 10; 160; 32]%N))
  = ([ResolveExistence None],
     Returns (respond (String_ Sample.invalid_path))) /\
  includes (lit "Command not found") (String_ Sample.invalid_path) = false.
Proof.
  assert (H : forallb is_space [32; 9; 10; 160; 32]%N = true)
    by (vm_compute; reflexivity).
  split; [exact H|]. split.
  - exact (proj2 (proj2 (whitespace_command_reports_resolver_rejection
                           (Sample.on_path [lit "echo"]) Sample.invalid_path
                           Sample.echoes _ H))).
  - vm_compute. reflexivity.
Defined.

(** C4: every [run_command] request is answered by exactly one content
    item of type [text] and MIME type [text/plain]; when the command
    resolves, is allowed and the executor succeeds, the text is the
    captured standard output, or the captured standard error when the
    standard output is empty. *)
Theorem run_command_response_shape
    (commandExists : ustr -> Await bool)
    (execa : ustr -> list str -> Await CommandResult)
    (command : ustr) :
  (exists s,
     result (callToolHandler commandExists execa (run_command command))
     = Returns {| content := [ {| type := lit "text"; text := s;
                                  mimeType := lit "text/plain" |} ] |}) /\
  (forall r,
     commandExists (shell_command_of command) = Fulfilled true ->
     validateCommand (shell_command_of command) = true ->
     execa (shell_command_of command) (args_of command) = Fulfilled r ->
     result (callToolHandler commandExists execa (run_command command))
     = Returns {| content :=
                    [ {| type := lit "text";
                         text := match stdout r with
                                 | [] => stderr r
                                 | _ :: _ => stdout r
                                 end;
                         mimeType := lit "text/plain" |} ] |}).
Proof.
  split.
  - apply handler_run_command_returns.
  - unfold shell_command_of, args_of. intros r Hfound Hallowed Hran.
    rewrite handler_run_command, Hfound, Hallowed, Hran.
    cbn [result snd]. unfold respond, text_item, or_default.
    destruct (stdout r); reflexivity.
Qed.

Lemma run_command_response_shape_witness :
  result (callToolHandler (Sample.only_exist [lit "ls"])
            (fun _ _ => Fulfilled {| stdout := []; stderr := lit "warning" |})
            (run_command (Some (lit "ls -l"))))
  = Returns {| content := [ {| type := lit "text"; text := lit "warning";
                               mimeType := lit "text/plain" |} ] |}.
Proof.
  exact (proj2 (run_command_response_shape
                  (Sample.only_exist [lit "ls"])
                  (fun _ _ => Fulfilled {| stdout := []; stderr := lit "warning" |})
                  (Some (lit "ls -l")))
               {| stdout := []; stderr := lit "warning" |}
               ltac:(vm_compute; reflexivity)
               ltac:(vm_compute; reflexivity)
               eq_refl).
Defined.

(** C5: a request whose operation name is not [run_command] makes the
    handler throw [Error: Unknown tool: <name>] before any stage is called,
    and this is the only way the handler throws: every [run_command]
    request returns a response. *)
Theorem unknown_tool_is_the_only_throw
    (commandExists : ustr -> Await bool)
    (execa : ustr -> list str -> Await CommandResult)
    (request : CallToolRequest) :
  (name request <> lit "run_command" ->
   callToolHandler commandExists execa request
   = ([], Throws (ErrorObject (lit "Unknown tool: " ++ name request)))) /\
  (forall e,
     result (callToolHandler commandExists execa request) = Throws e ->
     name request <> lit "run_command").
Proof.
  split.
  - apply handler_unknown_tool.
  - intros e Hthrows Hname. destruct request as [n c]. cbn [name] in Hname.
    subst n. destruct (handler_run_command_returns commandExists execa c)
      as [s Hs].
    unfold run_command in Hs. rewrite Hs in Hthrows. discriminate Hthrows.
Qed.

Lemma unknown_tool_is_the_only_throw_witness :
  lit "delete_everything" <> lit "run_command" /\
  callToolHandler Sample.nothing_exists Sample.echoes
    {| name := lit "delete_everything"; command_argument := Some (lit "ls") |}
  = ([], Throws (ErrorObject (lit "Unknown tool: " ++ lit "delete_everything"))).
Proof.
  assert (H : lit "delete_everything" <> lit "run_command")
    by (vm_compute; discriminate).
  split; [exact H|].
  exact (proj1 (unknown_tool_is_the_only_throw
                  Sample.nothing_exists Sample.echoes
                  {| name := lit "delete_everything";
                     command_argument := Some (lit "ls") |}) H).
Defined.

(** C6: on a host where [echo] resolves and the executor, launched with
    file [echo] and arguments [[hi]], captures [hi] followed by whatever
    trailing text it leaves (nothing, or a line feed) on standard output,
    the request [echo hi] is answered by one item whose text is that output
    and whose MIME type is [text/plain]. *)
Theorem echo_hi_end_to_end
    (commandExists : ustr -> Await bool)
    (execa : ustr -> list str -> Await CommandResult)
    (trailing err : str) :
  commandExists (Some (lit "echo")) = Fulfilled true ->
  execa (Some (lit "echo")) [lit "hi"]
  = Fulfilled {| stdout := lit "hi" ++ trailing; stderr := err |} ->
  callToolHandler commandExists execa (run_command (Some (lit "echo hi")))
  = ([ResolveExistence (Some (lit "echo"));
      EvaluatePolicy (Some (lit "echo"));
      LaunchProcess (Some (lit "echo")) [lit "hi"]],
     Returns {| content := [ {| type := lit "text";
                                text := lit "hi" ++ trailing;
                                mimeType := lit "text/plain" |} ] |}).
Proof.
  intros Hfound Hran. rewrite handler_run_command. cbn [ToString].
  replace (splitCommand (lit "echo hi")) with [lit "echo"; lit "hi"]
    by (vm_compute; reflexivity).
  cbn [hd_error tl]. rewrite Hfound, Hran.
  replace (validateCommand (Some (lit "echo"))) with true
    by (vm_compute; reflexivity).
  reflexivity.
Qed.

Lemma echo_hi_end_to_end_witness :
  Sample.only_exist [lit "echo"] (Some (lit "echo")) = Fulfilled true /\
  Sample.echoes (Some (lit "echo")) [lit "hi"]
  = Fulfilled {| stdout := lit "hi" ++ []; stderr := [] |} /\
  callToolHandler (Sample.only_exist [lit "echo"]) Sample.echoes
    (run_command (Some (lit "echo hi")))
  = ([ResolveExistence (Some (lit "echo"));
      EvaluatePolicy (Some (lit "echo"));
      LaunchProcess (Some (lit "echo")) [lit "hi"]],
     Returns {| content := [ {| type := lit "text";
                                text := lit "hi" ++ [];
                                mimeType := lit "text/plain" |} ] |}).
Proof.
  assert (H1 : Sample.only_exist [lit "echo"] (Some (lit "echo"))
               = Fulfilled true) by (vm_compute; reflexivity).
  assert (H2 : Sample.echoes (Some (lit "echo")) [lit "hi"]
               = Fulfilled {| stdout := lit "hi" ++ []; stderr := [] |})
    by (vm_compute; reflexivity).
  split; [exact H1|]. split; [exact H2|].
  exact (echo_hi_end_to_end (Sample.only_exist [lit "echo"]) Sample.echoes
           [] [] H1 H2).
Defined.

(** C7: every token is the text taken from a match of the pattern, whichever
    alternative matched, passed through the backslash-n replacement; the
    replacement turns every occurrence of backslash followed by n into one
    line feed and leaves no occurrence behind; tokenizing
    echo, space, double quote, line1 backslash n line2, double quote yields
    a second token with a line feed between line1 and line2, and so does
    the unquoted form. *)
Theorem backslash_n_becomes_newline :
  (forall command,
     splitCommand command
     = map (fun m => replace_backslash_n (arg_of m)) (exec_all command)) /\
  (forall a b,
     replace_backslash_n (a ++ [BACKSLASH; LOWER_N] ++ b)
     = replace_backslash_n a ++ [LF] ++ replace_backslash_n b) /\
  (forall s,
     includes [BACKSLASH; LOWER_N] s = false -> replace_backslash_n s = s) /\
  (forall command token,
     In token (splitCommand command) ->
     includes [BACKSLASH; LOWER_N] token = false) /\
  splitCommand (lit "echo " ++ [DQUOTE] ++ lit "line1"
                  ++ [BACKSLASH; LOWER_N] ++ lit "line2" ++ [DQUOTE])
  = [lit "echo"; lit "line1" ++ [LF] ++ lit "line2"] /\
  splitCommand (lit "echo line1" ++ [BACKSLASH; LOWER_N] ++ lit "line2")
  = [lit "echo"; lit "line1" ++ [LF] ++ lit "line2"].
Proof.
  split; [exact splitCommand_map|].
  split; [exact replace_backslash_n_app|].
  split; [exact replace_backslash_n_id|].
  split; [|split; vm_compute; reflexivity].
  intros command token Hin. rewrite splitCommand_map in Hin.
  apply in_map_iff in Hin as [m [<- _]].
  apply replace_backslash_n_clean.
Qed.

Lemma backslash_n_becomes_newline_witness :
  In (lit "a" ++ [LF] ++ lit "b")
     (splitCommand (lit "printf 'a" ++ [BACKSLASH; LOWER_N] ++ lit "b' x")) /\
  includes [BACKSLASH; LOWER_N] (lit "a" ++ [LF] ++ lit "b") = false.
Proof.
  assert (H : In (lit "a" ++ [LF] ++ lit "b")
                 (splitCommand (lit "printf 'a" ++ [BACKSLASH; LOWER_N]
                                  ++ lit "b' x")))
    by (vm_compute; right; left; reflexivity).
  split; [exact H|].
  exact (proj1 (proj2 (proj2 (proj2 backslash_n_becomes_newline))) _ _ H).
Defined.

(** C8: tokenizing echo, space, double quote, hello world, double quote
    yields exactly the two tokens [echo] and [hello world]. *)
Theorem quoted_hello_world :
  splitCommand (lit "echo " ++ [DQUOTE] ++ lit "hello world" ++ [DQUOTE])
  = [lit "echo"; lit "hello world"] /\
  exec ([DQUOTE] ++ lit "hello world" ++ [DQUOTE])
  = Some ({| m0 := [DQUOTE] ++ lit "hello world" ++ [DQUOTE];
             m1 := Some (lit "hello world");
             m2 := None |}, []).
Proof. split; vm_compute; reflexivity. Qed.

(** C9: [validateCommand] returns [false] exactly on the seventeen denied
    names and [true] on every other string, among them [RM] and [/bin/rm];
    the set built from the eighteen source entries has seventeen elements
    and equals the set built without the repeated [mkfs] entry. *)
Theorem validateCommand_denies_exactly :
  (forall s : str, validateCommand (Some s) = false <-> In s DENIED_NAMES) /\
  (forall s : str, validateCommand (Some s) = true <-> ~ In s DENIED_NAMES) /\
  NoDup DENIED_NAMES /\
  length DENIED_NAMES = 17 /\
  validateCommand (Some (lit "RM")) = true /\
  validateCommand (Some (lit "/bin/rm")) = true /\
  length BLACKLISTED_ENTRIES = 18 /\
  JsSet.size BLACKLISTED_COMMANDS = 17 /\
  BLACKLISTED_COMMANDS = JsSet.of_array (removelast BLACKLISTED_ENTRIES).
Proof.
  split; [exact validateCommand_false_iff|].
  split.
  { intros s. rewrite <- validateCommand_false_iff.
    destruct (validateCommand (Some s)); split; congruence. }
  split.
  { unfold DENIED_NAMES. cbn [map].
    repeat (constructor;
            [ let H := fresh in
              intros H; vm_compute in H;
              repeat (destruct H as [H|H]; [discriminate H|]); exact H | ]).
    constructor. }
  repeat split; vm_compute; reflexivity.
Qed.

Lemma validateCommand_denies_exactly_witness :
  In (lit "sudo") DENIED_NAMES /\ validateCommand (Some (lit "sudo")) = false.
Proof.
  assert (H : In (lit "sudo") DENIED_NAMES)
    by (vm_compute; do 8 right; left; reflexivity).
  split; [exact H|].
  exact (proj2 (proj1 validateCommand_denies_exactly (lit "sudo")) H).
Defined.

(** C10: a double-quoted substring with empty content keeps its quote
    characters: tokenizing echo, space, double quote, double quote yields
    [echo] and the token made of the two quote characters, because group 1
    is the empty string, which is falsy, so the whole match is taken. *)
Theorem empty_quotes_are_kept :
  splitCommand (lit "echo " ++ [DQUOTE; DQUOTE])
  = [lit "echo"; [DQUOTE; DQUOTE]] /\
  exec [DQUOTE; DQUOTE]
  = Some ({| m0 := [DQUOTE; DQUOTE]; m1 := Some []; m2 := None |}, []) /\
  arg_of {| m0 := [DQUOTE; DQUOTE]; m1 := Some []; m2 := None |}
  = [DQUOTE; DQUOTE].
Proof. repeat split; vm_compute; reflexivity. Qed.

(** ** Further properties of the tokenizer *)

Lemma exec_unfold_eq (s : str) :
  exec s =
  match match_here s with
  | Some r => Some r
  | None => match s with [] => None | _ :: s' => exec s' end
  end.
Proof. destruct s; reflexivity. Qed.

Lemma exec_skip_space (c : char16) (s : str) :
  is_space c = true -> exec (c :: s) = exec s.
Proof.
  intros H. cbn [exec]. now rewrite (match_here_space c s H).
Qed.

Lemma exec_skip_spaces (a s : str) :
  forallb is_space a = true -> exec (a ++ s) = exec s.
Proof.
  induction a as [|c a IH]; [reflexivity|].
  cbn [forallb app]. intros [Hc Ha]%andb_prop.
  rewrite (exec_skip_space c _ Hc). now apply IH.
Qed.

Lemma span_run (p : char16 -> bool) (w s : str) :
  forallb p w = true ->
  match s with [] => true | c :: _ => negb (p c) end = true ->
  span p (w ++ s) = (w, s).
Proof.
  intros Hw Hs. induction w as [|c w IH].
  - destruct s as [|d s]; [reflexivity|].
    cbn [app span]. apply negb_true_iff in Hs. now rewrite Hs.
  - cbn [forallb] in Hw. apply andb_prop in Hw as [Hc Hw].
    cbn [app span]. now rewrite Hc, (IH Hw).
Qed.

Lemma match_here_bare (w s : str) :
  w <> [] -> forallb is_bare w = true -> starts_bare s = false ->
  match_here (w ++ s) = Some (mkMatch w None None, s).
Proof.
  intros Hne Hw Hs. unfold match_here, alt_bare.
  rewrite (span_run is_bare w s Hw).
  - destruct w; [contradiction|reflexivity].
  - destruct s; [reflexivity|]. cbn [starts_bare] in Hs. now rewrite Hs.
Qed.

Lemma exec_bare (w s : str) :
  w <> [] -> forallb is_bare w = true -> starts_bare s = false ->
  exec (w ++ s) = Some (mkMatch w None None, s).
Proof.
  intros Hne Hw Hs. rewrite exec_unfold_eq.
  now rewrite (match_here_bare w s Hne Hw Hs).
Qed.

Lemma quoted_closed (q : char16) (inner s : str) :
  free_of q inner = true ->
  quoted q (q :: inner ++ q :: s) = Some (inner, s).
Proof.
  intros Hin. unfold quoted. rewrite N.eqb_refl.
  rewrite (span_run (fun d : char16 => negb (d =? q)%N) inner (q :: s) Hin).
  - reflexivity.
  - now rewrite N.eqb_refl.
Qed.

Lemma quoted_unclosed (q : char16) (s : str) :
  free_of q s = true -> quoted q (q :: s) = None.
Proof.
  intros Hs. unfold quoted. rewrite N.eqb_refl.
  pose proof (span_run (fun d : char16 => negb (d =? q)%N) s [] Hs eq_refl) as H.
  rewrite app_nil_r in H. now rewrite H.
Qed.

Lemma quoted_other (q c : char16) (s : str) :
  (c =? q)%N = false -> quoted q (c :: s) = None.
Proof. intros H. unfold quoted. now rewrite H. Qed.

Lemma alt_bare_not_bare (c : char16) (s : str) :
  is_bare c = false -> alt_bare (c :: s) = None.
Proof. intros H. unfold alt_bare. cbn [span]. now rewrite H. Qed.

Lemma exec_dquoted (inner s : str) :
  free_of DQUOTE inner = true ->
  exec (DQUOTE :: inner ++ DQUOTE :: s)
  = Some (mkMatch (DQUOTE :: inner ++ [DQUOTE]) (Some inner) None, s).
Proof.
  intros Hin. rewrite exec_unfold_eq. unfold match_here, alt_dquote.
  rewrite alt_bare_not_bare by reflexivity.
  now rewrite (quoted_closed DQUOTE inner s Hin).
Qed.

Lemma exec_squoted (inner s : str) :
  free_of SQUOTE inner = true ->
  exec (SQUOTE :: inner ++ SQUOTE :: s)
  = Some (mkMatch (SQUOTE :: inner ++ [SQUOTE]) None (Some inner), s).
Proof.
  intros Hin. rewrite exec_unfold_eq. unfold match_here, alt_dquote, alt_squote.
  rewrite alt_bare_not_bare by reflexivity.
  rewrite (quoted_other DQUOTE SQUOTE) by reflexivity.
  now rewrite (quoted_closed SQUOTE inner s Hin).
Qed.

Lemma exec_unclosed_dquote (s : str) :
  free_of DQUOTE s = true -> exec (DQUOTE :: s) = exec s.
Proof.
  intros Hs. cbn [exec]. unfold match_here, alt_dquote, alt_squote.
  rewrite alt_bare_not_bare by reflexivity.
  rewrite (quoted_unclosed DQUOTE s Hs).
  now rewrite (quoted_other SQUOTE DQUOTE) by reflexivity.
Qed.

Lemma exec_unclosed_squote (s : str) :
  free_of SQUOTE s = true -> exec (SQUOTE :: s) = exec s.
Proof.
  intros Hs. cbn [exec]. unfold match_here, alt_dquote, alt_squote.
  rewrite alt_bare_not_bare by reflexivity.
  rewrite (quoted_other DQUOTE SQUOTE) by reflexivity.
  now rewrite (quoted_unclosed SQUOTE s Hs).
Qed.

Lemma splitCommand_congr (s s' : str) :
  exec s = exec s' -> splitCommand s = splitCommand s'.
Proof.
  intros H. now rewrite (splitCommand_step s), (splitCommand_step s'), H.
Qed.

Lemma span_spec (p : char16 -> bool) (s a b : str) :
  span p s = (a, b) ->
  s = a ++ b /\ forallb p a = true /\
  match b with [] => true | c :: _ => negb (p c) end = true.
Proof.
  revert a b. induction s as [|c s IH]; intros a b; cbn [span].
  - intros [= <- <-]. repeat split.
  - destruct (p c) eqn:Hc.
    + destruct (span p s) as [a' b'] eqn:E. intros [= <- <-].
      destruct (IH _ _ eq_refl) as [-> [Ha Hb]].
      cbn [forallb app]. rewrite Hc, Ha. repeat split. exact Hb.
    + intros [= <- <-]. cbn [app forallb]. rewrite Hc. repeat split.
Qed.

Lemma is_bare_not_space (c : char16) : is_bare c = true -> is_space c = false.
Proof.
  unfold is_bare. intros H. apply andb_prop in H as [H _].
  apply andb_prop in H as [H _]. now apply negb_true_iff in H.
Qed.

Lemma is_bare_intro (c : char16) :
  is_space c = false -> (c =? DQUOTE)%N = false -> (c =? SQUOTE)%N = false ->
  is_bare c = true.
Proof. unfold is_bare. now intros -> -> ->. Qed.

(** What a match of the pattern looks like: the matched text is a
    non-empty prefix of the subject, and the text chosen among the groups
    and the whole match is non-empty and no longer than the match. *)
Lemma match_here_shape (s : str) (m : MatchResult) (rest : str) :
  match_here s = Some (m, rest) ->
  s = m0 m ++ rest /\ arg_of m <> [] /\ length (arg_of m) <= length (m0 m).
Proof.
  unfold match_here, alt_bare, alt_dquote, alt_squote.
  destruct (span is_bare s) as [w r] eqn:E.
  apply span_app in E. destruct w as [|c w].
  - destruct (quoted DQUOTE s) as [[i r']|] eqn:Q.
    + intros [= <- <-]. apply quoted_shape in Q as [-> _].
      cbn [m0 m1 m2]. split; [cbn [app]; now rewrite <- app_assoc|].
      unfold arg_of. cbn [m0 m1 m2]. destruct i as [|d i]; cbn.
      * split; [discriminate|lia].
      * split; [discriminate|]. rewrite length_app. cbn. lia.
    + destruct (quoted SQUOTE s) as [[i r']|] eqn:Q'; [|discriminate].
      intros [= <- <-]. apply quoted_shape in Q' as [-> _].
      cbn [m0 m1 m2]. split; [cbn [app]; now rewrite <- app_assoc|].
      unfold arg_of. cbn [m0 m1 m2]. destruct i as [|d i]; cbn.
      * split; [discriminate|lia].
      * split; [discriminate|]. rewrite length_app. cbn. lia.
  - intros [= <- <-]. cbn [m0]. split; [exact E|].
    unfold arg_of. cbn. split; [discriminate|lia].
Qed.

Lemma exec_shape (s : str) (m : MatchResult) (rest : str) :
  exec s = Some (m, rest) ->
  (exists skipped, s = skipped ++ m0 m ++ rest) /\
  arg_of m <> [] /\ length (arg_of m) <= length (m0 m).
Proof.
  induction s as [|c s IH].
  - discriminate.
  - cbn [exec]. destruct (match_here (c :: s)) as [[m' r']|] eqn:E.
    + intros [= <- <-]. apply match_here_shape in E as [E [H1 H2]].
      split; [exists []; exact E|]. now split.
    + intros H. destruct (IH H) as [[sk Hs] H12].
      split; [|exact H12]. exists (c :: sk). now rewrite Hs.
Qed.

Lemma replace_backslash_n_length (s : str) :
  length (replace_backslash_n s) <= length s.
Proof.
  induction s as [s IH] using str_length_ind.
  destruct s as [|c s]; [apply Nat.le_refl|].
  rewrite replace_backslash_n_cons. destruct s as [|d s]; [apply Nat.le_refl|].
  destruct ((c =? BACKSLASH)%N && (d =? LOWER_N)%N).
  - assert (H : length (replace_backslash_n s) <= length s)
      by (apply IH; simpl; lia).
    simpl in *. lia.
  - assert (H : length (replace_backslash_n (d :: s)) <= length (d :: s))
      by (apply IH; simpl; lia).
    simpl in *. lia.
Qed.

Lemma replace_backslash_n_nonempty (s : str) :
  s <> [] -> replace_backslash_n s <> [].
Proof.
  destruct s as [|c s]; [contradiction|]. intros _.
  rewrite replace_backslash_n_cons. destruct s as [|d s]; [discriminate|].
  destruct ((c =? BACKSLASH)%N && (d =? LOWER_N)%N); discriminate.
Qed.

Lemma free_of_app (q : char16) (a b : str) :
  free_of q (a ++ b) = free_of q a && free_of q b.
Proof. unfold free_of. apply forallb_app. Qed.

Lemma words_from_run (cur w s : str) :
  forallb (fun c => negb (is_space c)) w = true ->
  words_from cur (w ++ s) = words_from (cur ++ w) s.
Proof.
  revert cur. induction w as [|c w IH]; intros cur Hw.
  - now rewrite app_nil_r.
  - cbn [forallb] in Hw. apply andb_prop in Hw as [Hc Hw].
    apply negb_true_iff in Hc. cbn [app words_from]. rewrite Hc.
    rewrite (IH _ Hw). now rewrite <- app_assoc.
Qed.

Lemma span_app_fail (p : char16 -> bool) (s a : str) :
  forallb (fun c => negb (p c)) a = true ->
  span p (s ++ a) = (fst (span p s), snd (span p s) ++ a).
Proof.
  intros Ha. induction s as [|c s IH].
  - destruct a as [|d a]; [reflexivity|].
    cbn [forallb] in Ha. apply andb_prop in Ha as [Hd _].
    apply negb_true_iff in Hd. cbn [app span]. now rewrite Hd.
  - cbn [app span]. destruct (p c); [|reflexivity].
    rewrite IH. now destruct (span p s).
Qed.

Lemma span_app_pass (p : char16 -> bool) (s a : str) :
  forallb p a = true ->
  span p (s ++ a) =
  match snd (span p s) with
  | [] => (fst (span p s) ++ a, [])
  | d :: y => (fst (span p s), d :: y ++ a)
  end.
Proof.
  intros Ha. induction s as [|c s IH].
  - cbn [app span fst snd].
    pose proof (span_run p a [] Ha eq_refl) as H.
    now rewrite app_nil_r in H.
  - cbn [app span]. destruct (p c); [|reflexivity].
    rewrite IH. destruct (span p s) as [x y]. cbn [fst snd].
    now destruct y.
Qed.

Lemma quoted_app_spaces (q : char16) (s a : str) :
  forallb is_space a = true -> is_space q = false ->
  quoted q (s ++ a) =
  match quoted q s with
  | Some (i, r) => Some (i, r ++ a)
  | None => None
  end.
Proof.
  intros Ha Hq.
  assert (Hpass : forallb (fun d : char16 => negb (d =? q)%N) a = true).
  { apply forallb_forall. intros d Hd.
    rewrite forallb_forall in Ha. specialize (Ha d Hd).
    destruct (N.eqb_spec d q) as [->|]; [congruence|reflexivity]. }
  destruct s as [|c s].
  - cbn [app quoted]. destruct a as [|d a]; [reflexivity|].
    cbn [forallb] in Ha. apply andb_prop in Ha as [Hd _].
    cbn [quoted]. destruct (N.eqb_spec d q) as [->|]; [congruence|reflexivity].
  - cbn [app quoted]. destruct (c =? q)%N; [|reflexivity].
    rewrite (span_app_pass _ s a Hpass).
    destruct (span (fun d : char16 => negb (d =? q)%N) s) as [x y].
    cbn [fst snd]. now destruct y.
Qed.

Lemma match_here_app_spaces (s a : str) :
  forallb is_space a = true ->
  match_here (s ++ a) = shift_rest a (match_here s).
Proof.
  intros Ha. unfold match_here, alt_bare, alt_dquote, alt_squote.
  assert (Hfail : forallb (fun c => negb (is_bare c)) a = true).
  { apply forallb_forall. intros d Hd.
    rewrite forallb_forall in Ha. specialize (Ha d Hd).
    unfold is_bare. now rewrite Ha. }
  rewrite (span_app_fail is_bare s a Hfail).
  destruct (span is_bare s) as [w r]. cbn [fst snd].
  destruct w as [|c w]; [|reflexivity].
  rewrite (quoted_app_spaces DQUOTE s a Ha eq_refl).
  destruct (quoted DQUOTE s) as [[i r']|]; [reflexivity|].
  rewrite (quoted_app_spaces SQUOTE s a Ha eq_refl).
  now destruct (quoted SQUOTE s) as [[i r']|].
Qed.

Lemma exec_app_spaces (s a : str) :
  forallb is_space a = true ->
  exec (s ++ a) = shift_rest a (exec s).
Proof.
  intros Ha. induction s as [|c s IH].
  - cbn [app]. now rewrite (exec_spaces a Ha).
  - rewrite (exec_unfold_eq ((c :: s) ++ a)), (exec_unfold_eq (c :: s)).
    rewrite (match_here_app_spaces (c :: s) a Ha).
    destruct (match_here (c :: s)) as [[m r]|]; [reflexivity|].
    cbn [shift_rest app]. exact IH.
Qed.

Lemma splitCommand_app_spaces (a : str) :
  forallb is_space a = true ->
  forall s : str, splitCommand (s ++ a) = splitCommand s.
Proof.
  intros Ha s. induction s as [s IH] using str_length_ind.
  rewrite (splitCommand_step (s ++ a)), (splitCommand_step s).
  rewrite (exec_app_spaces s a Ha).
  destruct (exec s) as [[m r]|] eqn:E; [|reflexivity].
  cbn [shift_rest]. f_equal. apply IH. now apply exec_shorter in E.
Qed.

Lemma exec_all_Forall (P : MatchResult -> Prop) :
  (forall s m rest, exec s = Some (m, rest) -> P m) ->
  forall s : str, Forall P (exec_all s).
Proof.
  intros HP s. induction s as [s IH] using str_length_ind.
  rewrite exec_all_step. destruct (exec s) as [[m rest]|] eqn:E.
  - constructor; [exact (HP _ _ _ E)|]. apply IH. now apply exec_shorter in E.
  - constructor.
Qed.

Lemma quote_cases (q : char16) :
  q = DQUOTE \/ q = SQUOTE -> is_bare q = false /\ is_space q = false.
Proof. intros [->| ->]; split; reflexivity. Qed.

(** X1: when the command begins with a quote character, followed by text
    holding no such character, followed by the same quote character, the
    first token is that text with backslash-n replaced, whatever
    whitespace and other quote characters it holds, or the two quote
    characters themselves when the text is empty; the remaining tokens are
    those of what follows the closing quote. *)
Theorem quoted_run_is_one_token (q : char16) (inner s : str) :
  q = DQUOTE \/ q = SQUOTE ->
  free_of q inner = true ->
  splitCommand (q :: inner ++ q :: s)
  = replace_backslash_n (match inner with [] => [q; q] | _ :: _ => inner end)
    :: splitCommand s.
Proof.
  intros [->| ->] Hin; rewrite splitCommand_step.
  - rewrite (exec_dquoted inner s Hin). now destruct inner.
  - rewrite (exec_squoted inner s Hin). now destruct inner.
Qed.

Lemma quoted_run_is_one_token_witness :
  free_of SQUOTE (lit "two  words") = true /\
  splitCommand (SQUOTE :: lit "two  words" ++ SQUOTE :: lit " tail")
  = replace_backslash_n (lit "two  words") :: splitCommand (lit " tail").
Proof.
  assert (H : free_of SQUOTE (lit "two  words") = true)
    by (vm_compute; reflexivity).
  split; [exact H|].
  exact (quoted_run_is_one_token SQUOTE (lit "two  words") (lit " tail")
           (or_intror eq_refl) H).
Defined.

(** X2: an opening quote that is never closed is dropped: the tokens are
    those of the text after it. *)
Theorem unclosed_quote_is_dropped (q : char16) (s : str) :
  q = DQUOTE \/ q = SQUOTE ->
  free_of q s = true ->
  splitCommand (q :: s) = splitCommand s.
Proof.
  intros [->| ->] Hs; apply splitCommand_congr.
  - now apply exec_unclosed_dquote.
  - now apply exec_unclosed_squote.
Qed.

Lemma unclosed_quote_is_dropped_witness :
  free_of DQUOTE (lit "abc def") = true /\
  splitCommand (DQUOTE :: lit "abc def") = splitCommand (lit "abc def").
Proof.
  assert (H : free_of DQUOTE (lit "abc def") = true)
    by (vm_compute; reflexivity).
  split; [exact H|].
  exact (unclosed_quote_is_dropped DQUOTE (lit "abc def") (or_introl eq_refl) H).
Defined.

(** X3: whitespace before and after a command never changes its tokens. *)
Theorem surrounding_whitespace_is_ignored (a b s : str) :
  forallb is_space a = true ->
  forallb is_space b = true ->
  splitCommand (a ++ s ++ b) = splitCommand s.
Proof.
  intros Ha Hb. rewrite <- (splitCommand_app_spaces b Hb s).
  apply splitCommand_congr. now apply exec_skip_spaces.
Qed.

Lemma surrounding_whitespace_is_ignored_witness :
  forallb is_space [32; 9]%N = true /\
  forallb is_space [10]%N = true /\
  splitCommand ([32; 9]%N ++ lit "ls 'a b" ++ [10]%N)
  = splitCommand (lit "ls 'a b").
Proof.
  assert (Ha : forallb is_space [32; 9]%N = true) by (vm_compute; reflexivity).
  assert (Hb : forallb is_space [10]%N = true) by (vm_compute; reflexivity).
  split; [exact Ha|]. split; [exact Hb|].
  exact (surrounding_whitespace_is_ignored _ _ (lit "ls 'a b") Ha Hb).
Defined.

(** X4: no token is ever the empty string, so an empty argument cannot be
    passed to a command. *)
Theorem tokens_are_never_empty (command token : str) :
  In token (splitCommand command) -> token <> [].
Proof.
  rewrite splitCommand_map. intros Hin.
  apply in_map_iff in Hin as [m [<- Hm]].
  apply replace_backslash_n_nonempty.
  pose proof (exec_all_Forall (fun m => arg_of m <> [])
                (fun s m rest E => proj1 (proj2 (exec_shape s m rest E)))
                command) as Hall.
  rewrite Forall_forall in Hall. now apply Hall.
Qed.

Lemma tokens_are_never_empty_witness :
  In [SQUOTE; SQUOTE] (splitCommand (lit "printf '' x")) /\
  [SQUOTE; SQUOTE] <> [].
Proof.
  assert (H : In [SQUOTE; SQUOTE] (splitCommand (lit "printf '' x")))
    by (vm_compute; right; left; reflexivity).
  split; [exact H|].
  exact (tokens_are_never_empty (lit "printf '' x") [SQUOTE; SQUOTE] H).
Defined.

(** X5: the tokenizer never makes text up: the tokens together are no
    longer than the command, and there are at most as many tokens as the
    command has code units. *)
Theorem tokens_no_longer_than_command (command : str) :
  length (concat (splitCommand command)) <= length command /\
  length (splitCommand command) <= length command.
Proof.
  induction command as [s IH] using str_length_ind.
  rewrite splitCommand_step. destruct (exec s) as [[m rest]|] eqn:E.
  - pose proof (exec_shorter _ _ _ E) as Hlt.
    destruct (exec_shape _ _ _ E) as [[sk Hs] [_ Hlen]].
    destruct (IH rest Hlt) as [IH1 IH2].
    pose proof (replace_backslash_n_length (arg_of m)) as Hr.
    assert (Hl : length s = length sk + (length (m0 m) + length rest))
      by (rewrite Hs at 1; now rewrite !length_app).
    cbn [concat length]. rewrite length_app. split; lia.
  - cbn. split; lia.
Qed.

(** X6: on a command without quote characters the tokenizer is a plain
    whitespace splitter: the tokens are the maximal runs of
    non-whitespace code units, in order, each with backslash-n replaced. *)
Theorem quote_free_command_splits_on_whitespace (command : str) :
  free_of DQUOTE command = true ->
  free_of SQUOTE command = true ->
  splitCommand command = map replace_backslash_n (words command).
Proof.
  induction command as [s IH] using str_length_ind. intros Hd Hs.
  destruct s as [|c s]; [reflexivity|].
  destruct (is_space c) eqn:Hc.
  - rewrite (splitCommand_congr _ _ (exec_skip_space c s Hc)).
    unfold words. cbn [words_from]. rewrite Hc. cbn [app].
    cbn [free_of forallb] in Hd, Hs.
    apply andb_prop in Hd as [_ Hd]. apply andb_prop in Hs as [_ Hs].
    apply IH; [simpl; lia|exact Hd|exact Hs].
  - destruct (span is_bare (c :: s)) as [w rest] eqn:E.
    destruct (span_spec _ _ _ _ E) as [Hsplit [Hw Hrest]].
    assert (Hcb : is_bare c = true).
    { cbn [free_of forallb] in Hd, Hs.
      apply andb_prop in Hd as [Hd _]. apply andb_prop in Hs as [Hs _].
      apply negb_true_iff in Hd, Hs. now apply is_bare_intro. }
    assert (Hne : w <> []).
    { intros ->. cbn [span] in E. rewrite Hcb in E.
      destruct (span is_bare s); discriminate E. }
    rewrite Hsplit in Hd, Hs |- *.
    rewrite free_of_app in Hd, Hs.
    apply andb_prop in Hd as [_ Hd]. apply andb_prop in Hs as [_ Hs].
    assert (Hsb : starts_bare rest = false).
    { destruct rest; [reflexivity|]. now apply negb_true_iff in Hrest. }
    rewrite splitCommand_step, (exec_bare w rest Hne Hw Hsb).
    assert (Hlt : length rest < length (c :: s)).
    { rewrite Hsplit, length_app. destruct w; [contradiction|simpl; lia]. }
    rewrite (IH rest Hlt Hd Hs).
    assert (Hnsp : forallb (fun c => negb (is_space c)) w = true).
    { apply forallb_forall. intros d Hin. rewrite forallb_forall in Hw.
      now rewrite (is_bare_not_space d (Hw d Hin)). }
    unfold words. rewrite (words_from_run [] w rest Hnsp). cbn [app].
    change (arg_of (mkMatch w None None)) with w.
    destruct rest as [|d rest].
    + cbn [words_from]. destruct w; [contradiction|reflexivity].
    + cbn [starts_bare] in Hsb.
      assert (Hdsp : is_space d = true).
      { cbn [free_of forallb] in Hd, Hs.
        apply andb_prop in Hd as [Hd _]. apply andb_prop in Hs as [Hs _].
        apply negb_true_iff in Hd, Hs.
        destruct (is_space d) eqn:Ed; [reflexivity|].
        now rewrite (is_bare_intro d Ed Hd Hs) in Hsb. }
      cbn [words_from]. rewrite Hdsp.
      destruct w; [contradiction|reflexivity].
Qed.

Lemma quote_free_command_splits_on_whitespace_witness :
  free_of DQUOTE (lit " git   log --oneline ") = true /\
  free_of SQUOTE (lit " git   log --oneline ") = true /\
  splitCommand (lit " git   log --oneline ")
  = map replace_backslash_n (words (lit " git   log --oneline ")).
Proof.
  assert (H1 : free_of DQUOTE (lit " git   log --oneline ") = true)
    by (vm_compute; reflexivity).
  assert (H2 : free_of SQUOTE (lit " git   log --oneline ") = true)
    by (vm_compute; reflexivity).
  split; [exact H1|]. split; [exact H2|].
  exact (quote_free_command_splits_on_whitespace _ H1 H2).
Defined.

(** X7: the backslash-n replacement is idempotent and never lengthens its
    subject. *)
Theorem replace_backslash_n_idempotent (s : str) :
  replace_backslash_n (replace_backslash_n s) = replace_backslash_n s /\
  length (replace_backslash_n s) <= length s.
Proof.
  split.
  - apply replace_backslash_n_id, replace_backslash_n_clean.
  - apply replace_backslash_n_length.
Qed.

(** X8: a quoted run glued to a preceding word is a token of its own:
    unlike a shell, the tokenizer does not join the two. *)
Theorem word_then_quote_are_two_tokens (q : char16) (w inner s : str) :
  q = DQUOTE \/ q = SQUOTE ->
  w <> [] -> forallb is_bare w = true ->
  inner <> [] -> free_of q inner = true ->
  splitCommand (w ++ q :: inner ++ q :: s)
  = replace_backslash_n w :: replace_backslash_n inner :: splitCommand s.
Proof.
  intros Hq Hne Hw Hi Hin. rewrite splitCommand_step.
  rewrite (exec_bare w (q :: inner ++ q :: s) Hne Hw
             (proj1 (quote_cases q Hq))).
  change (arg_of (mkMatch w None None)) with w. f_equal.
  destruct Hq as [->| ->]; rewrite splitCommand_step.
  - rewrite (exec_dquoted inner s Hin). destruct inner; [contradiction|reflexivity].
  - rewrite (exec_squoted inner s Hin). destruct inner; [contradiction|reflexivity].
Qed.

Lemma word_then_quote_are_two_tokens_witness :
  lit "--name=" <> [] /\ forallb is_bare (lit "--name=") = true /\
  lit "a b" <> [] /\ free_of DQUOTE (lit "a b") = true /\
  splitCommand (lit "--name=" ++ DQUOTE :: lit "a b" ++ DQUOTE :: [])
  = replace_backslash_n (lit "--name=")
    :: replace_backslash_n (lit "a b") :: splitCommand [].
Proof.
  assert (H1 : lit "--name=" <> []) by (vm_compute; discriminate).
  assert (H2 : forallb is_bare (lit "--name=") = true)
    by (vm_compute; reflexivity).
  assert (H3 : lit "a b" <> []) by (vm_compute; discriminate).
  assert (H4 : free_of DQUOTE (lit "a b") = true) by (vm_compute; reflexivity).
  split; [exact H1|]. split; [exact H2|]. split; [exact H3|]. split; [exact H4|].
  exact (word_then_quote_are_two_tokens DQUOTE (lit "--name=") (lit "a b") []
           (or_introl eq_refl) H1 H2 H3 H4).
Defined.

(** ** Further properties of the handler *)

(** X9: a child process is launched exactly when the first token resolves
    and passes the policy gate, and then with the first token as file and
    the remaining tokens, whatever they are, as arguments. *)
Theorem process_launched_iff
    (commandExists : ustr -> Await bool)
    (execa : ustr -> list str -> Await CommandResult)
    (command : ustr) (file : ustr) (args : list str) :
  In (LaunchProcess file args)
     (trace (callToolHandler commandExists execa (run_command command)))
  <->
  commandExists (shell_command_of command) = Fulfilled true /\
  validateCommand (shell_command_of command) = true /\
  file = shell_command_of command /\ args = args_of command.
Proof.
  unfold shell_command_of, args_of. rewrite handler_run_command.
  destruct (commandExists _) as [[|]|e].
  - destruct (validateCommand _); cbn [trace fst In]; split.
    + intros [H|[H|[H|[]]]]; try discriminate H.
      injection H as <- <-. now repeat split.
    + intros [_ [_ [-> ->]]]. right; right; left; reflexivity.
    + intros [H|[H|[]]]; discriminate H.
    + intros [_ [H _]]. discriminate H.
  - cbn [trace fst In]. split.
    + intros [H|[]]; discriminate H.
    + intros [H _]. discriminate H.
  - cbn [trace fst In]. split.
    + intros [H|[]]; discriminate H.
    + intros [H _]. discriminate H.
Qed.

Lemma process_launched_iff_witness :
  In (LaunchProcess (Some (lit "sh")) [lit "-c"; lit "rm -rf x"])
     (trace (callToolHandler (Sample.only_exist [lit "sh"]) Sample.echoes
               (run_command (Some (lit "sh -c 'rm -rf x'"))))).
Proof.
  apply (proj2 (process_launched_iff (Sample.only_exist [lit "sh"])
                  Sample.echoes (Some (lit "sh -c 'rm -rf x'"))
                  (Some (lit "sh")) [lit "-c"; lit "rm -rf x"])).
  vm_compute. repeat split; reflexivity.
Defined.

(** X10: the stages are called in a fixed order, each at most once: the
    resolver first, the policy gate only after it, the executor only
    after both. *)
Theorem stages_run_in_order
    (commandExists : ustr -> Await bool)
    (execa : ustr -> list str -> Await CommandResult)
    (command : ustr) :
  trace (callToolHandler commandExists execa (run_command command))
  = [ResolveExistence (shell_command_of command)] \/
  trace (callToolHandler commandExists execa (run_command command))
  = [ResolveExistence (shell_command_of command);
     EvaluatePolicy (shell_command_of command)] \/
  trace (callToolHandler commandExists execa (run_command command))
  = [ResolveExistence (shell_command_of command);
     EvaluatePolicy (shell_command_of command);
     LaunchProcess (shell_command_of command) (args_of command)].
Proof.
  unfold shell_command_of, args_of. rewrite handler_run_command.
  destruct (commandExists _) as [[|]|e]; [|now left..].
  destruct (validateCommand _); [right; right|right; left]; reflexivity.
Qed.

(** X11: when the resolver rejects, the handler returns the rejection
    rendered as text, and calls neither the policy gate nor the executor. *)
Theorem resolver_rejection_is_reported
    (commandExists : ustr -> Await bool)
    (execa : ustr -> list str -> Await CommandResult)
    (command : ustr) (e : thrown) :
  commandExists (shell_command_of command) = Rejected e ->
  callToolHandler commandExists execa (run_command command)
  = ([ResolveExistence (shell_command_of command)],
     Returns {| content := [ {| type := lit "text"; text := String_ e;
                                mimeType := lit "text/plain" |} ] |}).
Proof.
  unfold shell_command_of. intros H. now rewrite handler_run_command, H.
Qed.

Lemma resolver_rejection_is_reported_witness :
  callToolHandler (fun _ => Rejected (Foreign (lit "null"))) Sample.echoes
    (run_command (Some (lit "nosuchtool -v")))
  = ([ResolveExistence (shell_command_of (Some (lit "nosuchtool -v")))],
     Returns {| content := [ {| type := lit "text";
                                text := String_ (Foreign (lit "null"));
                                mimeType := lit "text/plain" |} ] |}).
Proof.
  exact (resolver_rejection_is_reported
           (fun _ => Rejected (Foreign (lit "null"))) Sample.echoes
           (Some (lit "nosuchtool -v")) (Foreign (lit "null")) eq_refl).
Defined.

(** X12: when the executor rejects (the process cannot be spawned or exits
    with an error), the handler returns the error rendered as text; it
    does not throw. *)
Theorem executor_rejection_is_reported
    (commandExists : ustr -> Await bool)
    (execa : ustr -> list str -> Await CommandResult)
    (command : ustr) (e : thrown) :
  commandExists (shell_command_of command) = Fulfilled true ->
  validateCommand (shell_command_of command) = true ->
  execa (shell_command_of command) (args_of command) = Rejected e ->
  result (callToolHandler commandExists execa (run_command command))
  = Returns {| content := [ {| type := lit "text"; text := String_ e;
                               mimeType := lit "text/plain" |} ] |}.
Proof.
  unfold shell_command_of, args_of. intros H1 H2 H3.
  now rewrite handler_run_command, H1, H2, H3.
Qed.

Lemma executor_rejection_is_reported_witness :
  result (callToolHandler (Sample.only_exist [lit "false"]) Sample.spawn_fails
            (run_command (Some (lit "false"))))
  = Returns {| content := [ {| type := lit "text";
                               text := String_ (Foreign (lit "Error: spawn failed"));
                               mimeType := lit "text/plain" |} ] |}.
Proof.
  exact (executor_rejection_is_reported
           (Sample.only_exist [lit "false"]) Sample.spawn_fails
           (Some (lit "false")) (Foreign (lit "Error: spawn failed"))
           ltac:(vm_compute; reflexivity) ltac:(vm_compute; reflexivity)
           ltac:(vm_compute; reflexivity)).
Defined.

(** X13: the tool names the server advertises are exactly the operation
    names its call handler answers instead of throwing. *)
Theorem advertised_tools_are_the_accepted_ones
    (commandExists : ustr -> Await bool)
    (execa : ustr -> list str -> Await CommandResult)
    (request : CallToolRequest) :
  (exists tool, In tool ListTools.listToolsHandler /\
                ListTools.name tool = name request)
  <->
  (exists response,
     result (callToolHandler commandExists execa request) = Returns response).
Proof.
  split.
  - intros [tool [[<-|[]] Hname]]. cbn in Hname.
    destruct request as [n c]. cbn [name] in Hname. subst n.
    destruct (handler_run_command_returns commandExists execa c) as [s Hs].
    exists (respond s). exact Hs.
  - intros [response Hr].
    destruct (str_eqb_spec (name request) (lit "run_command")) as [E|NE].
    + eexists. split; [left; reflexivity|]. cbn. now rewrite E.
    + rewrite (handler_unknown_tool commandExists execa request NE) in Hr.
      discriminate Hr.
Qed.

(** X14: a request without a [command] argument is handled as the command
    [undefined]: the resolver is asked for an executable of that name. *)
Theorem absent_command_is_undefined
    (commandExists : ustr -> Await bool)
    (execa : ustr -> list str -> Await CommandResult) :
  shell_command_of None = Some (lit "undefined") /\
  args_of None = [] /\
  callToolHandler commandExists execa (run_command None)
  = callToolHandler commandExists execa (run_command (Some (lit "undefined"))).
Proof.
  split; [vm_compute; reflexivity|]. split; [vm_compute; reflexivity|].
  now rewrite !handler_run_command.
Qed.

Lemma quoted_first_token (q : char16) (inner rest : str) :
  q = DQUOTE \/ q = SQUOTE -> free_of q inner = true -> inner <> [] ->
  shell_command_of (Some (q :: inner ++ q :: rest))
  = Some (replace_backslash_n inner).
Proof.
  intros Hq Hin Hne. unfold shell_command_of. cbn [ToString].
  rewrite splitCommand_step.
  destruct Hq as [->| ->];
    [rewrite (exec_dquoted inner rest Hin)|rewrite (exec_squoted inner rest Hin)];
    destruct inner; [contradiction|reflexivity|contradiction|reflexivity].
Qed.

Lemma denied_name_plain (n : str) :
  In n DENIED_NAMES ->
  n <> [] /\ free_of DQUOTE n = true /\ free_of SQUOTE n = true /\
  replace_backslash_n n = n /\ validateCommand (Some n) = false.
Proof.
  intros H. unfold DENIED_NAMES in H. cbn [map In] in H.
  repeat (destruct H as [<-|H];
          [split; [discriminate|repeat split; vm_compute; reflexivity]|]).
  contradiction.
Qed.

(** X24: putting a denied name in quotes does not get it past the policy
    gate: the quotes are stripped before the check, so the first token is
    the denied name and no process is launched. *)
Theorem quoted_denied_name_is_still_denied
    (commandExists : ustr -> Await bool)
    (execa : ustr -> list str -> Await CommandResult)
    (q : char16) (n rest : str) :
  q = DQUOTE \/ q = SQUOTE ->
  In n DENIED_NAMES ->
  shell_command_of (Some (q :: n ++ q :: rest)) = Some n /\
  forall f a,
    ~ In (LaunchProcess f a)
         (trace (callToolHandler commandExists execa
                   (run_command (Some (q :: n ++ q :: rest))))).
Proof.
  intros Hq Hn.
  destruct (denied_name_plain n Hn) as [Hne [Hd [Hs [Hr Hv]]]].
  assert (Hfree : free_of q n = true) by (destruct Hq as [->| ->]; assumption).
  pose proof (quoted_first_token q n rest Hq Hfree Hne) as Hfirst.
  rewrite Hr in Hfirst. split; [exact Hfirst|].
  intros f a. unfold shell_command_of in Hfirst.
  rewrite handler_run_command, Hfirst, Hv.
  destruct (commandExists (Some n)) as [[|]|e];
    cbn [trace fst In]; intuition discriminate.
Qed.

Lemma quoted_denied_name_is_still_denied_witness :
  In (lit "rm") DENIED_NAMES /\
  shell_command_of (Some (DQUOTE :: lit "rm" ++ DQUOTE :: lit " -rf /tmp/x"))
  = Some (lit "rm").
Proof.
  assert (H : In (lit "rm") DENIED_NAMES) by (vm_compute; left; reflexivity).
  split; [exact H|].
  exact (proj1 (quoted_denied_name_is_still_denied
                  Sample.nothing_exists Sample.echoes DQUOTE (lit "rm")
                  (lit " -rf /tmp/x") (or_introl eq_refl) H)).
Defined.





(** ** Properties of the configuration bootstrap *)

Module ConfigFacts.
Import Config.

Lemma lookup_assign_same (k : str) (v : value) (props : list (str * value)) :
  lookup k (assign k v props) = Some v.
Proof.
  induction props as [|[k' v'] props IH]; cbn [assign lookup].
  - now rewrite str_eqb_refl.
  - destruct (str_eqb k k') eqn:E; cbn [lookup].
    + now rewrite str_eqb_refl.
    + now rewrite E.
Qed.

Lemma lookup_assign_other (k k' : str) (v : value) (props : list (str * value)) :
  k' <> k -> lookup k' (assign k v props) = lookup k' props.
Proof.
  intros Hne. induction props as [|[k0 v0] props IH]; cbn [assign lookup].
  - destruct (str_eqb_spec k' k); [contradiction|reflexivity].
  - destruct (str_eqb_spec k k0) as [<-|Hk]; cbn [lookup].
    + now destruct (str_eqb_spec k' k).
    + now rewrite IH.
Qed.

Lemma assign_assign (k : str) (v1 v2 : value) (props : list (str * value)) :
  assign k v2 (assign k v1 props) = assign k v2 props.
Proof.
  induction props as [|[k' v'] props IH]; cbn [assign].
  - now rewrite str_eqb_refl.
  - destruct (str_eqb k k') eqn:E; cbn [assign].
    + now rewrite str_eqb_refl.
    + now rewrite E, IH.
Qed.

Lemma assign_keys_present (k : str) (v : value) (props : list (str * value)) :
  lookup k props <> None -> map fst (assign k v props) = map fst props.
Proof.
  induction props as [|[k' v'] props IH]; cbn [assign lookup map fst].
  - contradiction.
  - destruct (str_eqb_spec k k') as [<-|Hk]; cbn [map fst].
    + reflexivity.
    + intros H. now rewrite (IH H).
Qed.

Lemma assign_absent (k : str) (v : value) (props : list (str * value)) :
  lookup k props = None -> assign k v props = props ++ [(k, v)].
Proof.
  induction props as [|[k' v'] props IH]; cbn [assign lookup app].
  - reflexivity.
  - destruct (str_eqb k k'); [discriminate|]. intros H. now rewrite (IH H).
Qed.

Lemma get_property_container (k : str) (v : value) :
  is_container v = true -> get_property k v = inr (lookup k (named v)).
Proof. destruct v; try discriminate; reflexivity. Qed.

Lemma set_property_container (k : str) (x v : value) :
  is_container v = true ->
  set_property k x v = inr (with_named v (assign k x (named v))).
Proof. destruct v; try discriminate; reflexivity. Qed.

Lemma set_property_primitive (k : str) (x v : value) :
  is_container v = false -> set_property k x v = inl TypeError.
Proof. destruct v; try discriminate; reflexivity. Qed.

Lemma with_named_container (v : value) (props : list (str * value)) :
  is_container v = true ->
  is_container (with_named v props) = true /\
  named (with_named v props) = props /\
  forall props', with_named (with_named v props) props' = with_named v props'.
Proof. destruct v; try discriminate; repeat split. Qed.

(** [register_server] in closed form. *)
Lemma register_server_eq (scriptPath : str) (config : value) :
  register_server scriptPath config =
  if is_container config then
    let servers := or_empty_object (lookup MCP_SERVERS (named config)) in
    if is_container servers then
      inr (with_named config
             (assign MCP_SERVERS
                (with_named servers
                   (assign SHELL_SERVER (server_entry scriptPath)
                      (named servers)))
                (named config)))
    else inl TypeError
  else inl TypeError.
Proof.
  unfold register_server.
  destruct (is_container config) eqn:Hc.
  - rewrite (get_property_container _ _ Hc).
    rewrite (set_property_container _ _ _ Hc).
    destruct (with_named_container config
                (assign MCP_SERVERS
                   (or_empty_object (lookup MCP_SERVERS (named config)))
                   (named config)) Hc) as [Hc1 [Hn1 Hw1]].
    rewrite (get_property_container _ _ Hc1), Hn1, lookup_assign_same.
    cbv zeta.
    destruct (is_container (or_empty_object _)) eqn:Hs.
    + rewrite (set_property_container _ _ _ Hs).
      rewrite (set_property_container _ _ _ Hc1), Hn1, Hw1.
      now rewrite assign_assign.
    + now rewrite (set_property_primitive _ _ _ Hs).
  - destruct config; try discriminate; reflexivity.
Qed.

Lemma container_or_empty_object (v : value) :
  is_container v = true -> or_empty_object (Some v) = v.
Proof. destruct v; try discriminate; reflexivity. Qed.

(** [updateConfig] under npx on a supported platform, by what the
    collaborators answer. *)
Lemma updateConfig_npx (h : Host) (p : str) :
  isNpx h = true -> getConfigPath h = inr p ->
  updateConfig h =
  let pre := ReadFile p ::
             match loaded h p with None => [CREATING] | Some _ => [] end in
  let config := match loaded h p with Some v => v | None => VObj [] end in
  match register_server (argv1 h) config with
  | inl e => (pre ++ [FAILED e], Exit 1)
  | inr config' =>
      let dir := path_dirname h p in
      let text := JSON_stringify h config' in
      let made := if existsSync h dir then [] else [MkdirRecursive dir] in
      match (if existsSync h dir then None else mkdirSync h dir) with
      | Some e => (pre ++ ExistsSync dir :: made ++ [FAILED (Raised e)], Exit 1)
      | None =>
          match writeFileSync h p text with
          | Some e =>
              (pre ++ ExistsSync dir :: made
                 ++ [WriteFile p text; FAILED (Raised e)], Exit 1)
          | None =>
              (pre ++ ExistsSync dir :: made
                 ++ [WriteFile p text;
                     ConsoleLog [lit "Updated config at:"; p];
                     ConsoleLog [lit "Added server with command:"; argv1 h]],
               Done tt)
          end
      end
  end.
Proof.
  intros Hnpx Hpath. unfold updateConfig, loaded. rewrite Hnpx, Hpath.
  cbn [negb or_throw pure seq app].
  repeat (match goal with
            | |- context [readFileSync ?a ?b] => destruct (readFileSync a b)
            | |- context [JSON_parse ?a ?b] => destruct (JSON_parse a b)
            | |- context [register_server ?a ?b] =>
                destruct (register_server a b)
            | |- context [existsSync ?a ?b] => destruct (existsSync a b)
            | |- context [mkdirSync ?a ?b] => destruct (mkdirSync a b)
            | |- context [writeFileSync ?a ?b ?c] =>
                destruct (writeFileSync a b c)
            end; cbn -[register_server]);
    reflexivity.
Qed.

Lemma getConfigPath_error (h : Host) (e : thrown) :
  getConfigPath h = inl e -> e = ErrorObject (lit "Unsupported platform").
Proof.
  unfold getConfigPath.
  destruct (str_eqb (platform h) (lit "darwin")); [discriminate|].
  destruct (str_eqb (platform h) (lit "win32")); [discriminate|].
  now intros [= <-].
Qed.

Lemma updateConfig_not_npx (h : Host) :
  isNpx h = false ->
  updateConfig h = ([ConsoleLog [lit "Not running via npx"]], Done tt).
Proof. intros H. unfold updateConfig. now rewrite H. Qed.

Lemma updateConfig_no_path (h : Host) (e : thrown) :
  isNpx h = true -> getConfigPath h = inl e ->
  updateConfig h = ([], Raise (Raised e)).
Proof. intros H1 H2. unfold updateConfig. now rewrite H1, H2. Qed.

Lemma updateConfig_ending (h : Host) :
  ending (updateConfig h) = Done tt \/
  ending (updateConfig h)
  = Raise (Raised (ErrorObject (lit "Unsupported platform"))) \/
  ending (updateConfig h) = Exit 1.
Proof.
  destruct (isNpx h) eqn:Hnpx.
  - destruct (getConfigPath h) as [e|p] eqn:Hp.
    + rewrite (updateConfig_no_path h e Hnpx Hp).
      rewrite (getConfigPath_error h e Hp). right; left; reflexivity.
    + rewrite (updateConfig_npx h p Hnpx Hp). cbv zeta.
      destruct (register_server _ _); [right; right; reflexivity|].
      destruct (if existsSync h _ then None else mkdirSync h _);
        [right; right; reflexivity|].
      destruct (writeFileSync h p _); [right; right|left]; reflexivity.
  - rewrite (updateConfig_not_npx h Hnpx). left; reflexivity.
Qed.

(** X15: when the configuration object already has an [mcpServers]
    object, registering keeps every other top-level entry, every other
    server and the order of the top-level keys, and sets the
    [shell-server] entry to the given script path. *)
Theorem register_server_keeps_other_entries
    (scriptPath : str) (props servers : list (str * value)) :
  lookup MCP_SERVERS props = Some (VObj servers) ->
  exists props' servers',
    register_server scriptPath (VObj props) = inr (VObj props') /\
    lookup MCP_SERVERS props' = Some (VObj servers') /\
    lookup SHELL_SERVER servers' = Some (server_entry scriptPath) /\
    (forall k, k <> MCP_SERVERS -> lookup k props' = lookup k props) /\
    (forall k, k <> SHELL_SERVER -> lookup k servers' = lookup k servers) /\
    map fst props' = map fst props.
Proof.
  intros Hs. rewrite register_server_eq. cbn [is_container named].
  rewrite Hs. cbn [or_empty_object truthy_value is_container named with_named].
  cbv zeta. eexists. eexists. split; [reflexivity|].
  split; [apply lookup_assign_same|].
  split; [apply lookup_assign_same|].
  split; [intros k Hk; now apply lookup_assign_other|].
  split; [intros k Hk; now apply lookup_assign_other|].
  apply assign_keys_present. now rewrite Hs.
Qed.

Lemma register_server_keeps_other_entries_witness :
  exists props' servers',
    register_server (lit "/bin/s")
      (VObj [(lit "theme", VStr (lit "dark"));
             (MCP_SERVERS, VObj [(lit "other", VObj [])])])
    = inr (VObj props') /\
    lookup MCP_SERVERS props' = Some (VObj servers') /\
    lookup SHELL_SERVER servers' = Some (server_entry (lit "/bin/s")) /\
    (forall k, k <> MCP_SERVERS ->
       lookup k props'
       = lookup k [(lit "theme", VStr (lit "dark"));
                   (MCP_SERVERS, VObj [(lit "other", VObj [])])]) /\
    (forall k, k <> SHELL_SERVER ->
       lookup k servers' = lookup k [(lit "other", VObj [])]) /\
    map fst props'
    = map fst [(lit "theme", VStr (lit "dark"));
               (MCP_SERVERS, VObj [(lit "other", VObj [])])].
Proof.
  exact (register_server_keeps_other_entries (lit "/bin/s")
           [(lit "theme", VStr (lit "dark"));
            (MCP_SERVERS, VObj [(lit "other", VObj [])])]
           [(lit "other", VObj [])] eq_refl).
Defined.

(** X16: when [mcpServers] is missing or falsy (null, false, zero, the
    empty string), it is replaced by an object holding only the
    [shell-server] entry; the other top-level entries are kept. *)
Theorem register_server_without_servers
    (scriptPath : str) (props : list (str * value)) :
  truthy_value (lookup MCP_SERVERS props) = false ->
  register_server scriptPath (VObj props)
  = inr (VObj (assign MCP_SERVERS
                 (VObj [(SHELL_SERVER, server_entry scriptPath)]) props)) /\
  (forall k, k <> MCP_SERVERS ->
     lookup k (assign MCP_SERVERS
                 (VObj [(SHELL_SERVER, server_entry scriptPath)]) props)
     = lookup k props).
Proof.
  intros Hf. split; [|intros k Hk; now apply lookup_assign_other].
  rewrite register_server_eq. cbn [is_container named]. cbv zeta.
  assert (Hempty : or_empty_object (lookup MCP_SERVERS props) = VObj []).
  { unfold or_empty_object. destruct (lookup MCP_SERVERS props); [|reflexivity].
    now rewrite Hf. }
  rewrite Hempty. reflexivity.
Qed.

Lemma register_server_without_servers_witness :
  truthy_value (lookup MCP_SERVERS [(MCP_SERVERS, VNull)]) = false /\
  register_server (lit "/bin/s") (VObj [(MCP_SERVERS, VNull)])
  = inr (VObj (assign MCP_SERVERS
                 (VObj [(SHELL_SERVER, server_entry (lit "/bin/s"))])
                 [(MCP_SERVERS, VNull)])).
Proof.
  split; [reflexivity|].
  exact (proj1 (register_server_without_servers (lit "/bin/s")
                  [(MCP_SERVERS, VNull)] eq_refl)).
Defined.

(** X17: registering again overwrites the earlier registration and
    changes nothing else: the result is the same as registering the later
    script path alone; in particular registering twice with the same path
    is the same as registering once. *)
Theorem register_server_last_wins
    (first second : str) (config config1 : value) :
  register_server first config = inr config1 ->
  register_server second config1 = register_server second config.
Proof.
  rewrite (register_server_eq first config).
  destruct (is_container config) eqn:Hc; [|discriminate]. cbv zeta.
  destruct (is_container (or_empty_object _)) eqn:Hs; [|discriminate].
  intros [= <-].
  set (servers := or_empty_object (lookup MCP_SERVERS (named config))) in *.
  set (servers1 := with_named servers
                     (assign SHELL_SERVER (server_entry first)
                        (named servers))).
  destruct (with_named_container servers
              (assign SHELL_SERVER (server_entry first) (named servers)) Hs)
    as [Hs1 [Hn1 Hw1]]. fold servers1 in Hs1, Hn1, Hw1.
  destruct (with_named_container config
              (assign MCP_SERVERS servers1 (named config)) Hc)
    as [Hc1 [Hcn1 Hcw1]].
  rewrite (register_server_eq second (with_named config _)).
  rewrite Hc1, Hcn1, lookup_assign_same. cbv zeta.
  rewrite (container_or_empty_object servers1 Hs1), Hs1, Hn1, Hw1, Hcw1.
  rewrite !assign_assign.
  rewrite (register_server_eq second config), Hc. cbv zeta.
  fold servers. now rewrite Hs.
Qed.

Lemma register_server_last_wins_witness :
  register_server (lit "/old") (VObj [])
  = inr (VObj [(MCP_SERVERS,
                VObj [(SHELL_SERVER, server_entry (lit "/old"))])]) /\
  register_server (lit "/new")
    (VObj [(MCP_SERVERS, VObj [(SHELL_SERVER, server_entry (lit "/old"))])])
  = register_server (lit "/new") (VObj []).
Proof.
  assert (H : register_server (lit "/old") (VObj [])
              = inr (VObj [(MCP_SERVERS,
                            VObj [(SHELL_SERVER, server_entry (lit "/old"))])]))
    by reflexivity.
  split; [exact H|].
  exact (register_server_last_wins (lit "/old") (lit "/new") _ _ H).
Defined.

(** X18: registering fails, always with a [TypeError], exactly when the
    parsed configuration is null or a primitive, or when its [mcpServers]
    is a truthy primitive (true, a non-zero number, a non-empty string). *)
Theorem register_server_fails_iff (scriptPath : str) (config : value) :
  ((exists e, register_server scriptPath config = inl e)
   <->
   is_container config = false \/
   exists v, get_property MCP_SERVERS config = inr (Some v) /\
             truthy_value (Some v) = true /\ is_container v = false) /\
  (forall e, register_server scriptPath config = inl e -> e = TypeError).
Proof.
  rewrite register_server_eq. cbv zeta.
  destruct (is_container config) eqn:Hc.
  - rewrite (get_property_container _ _ Hc).
    destruct (lookup MCP_SERVERS (named config)) as [v|] eqn:Hl.
    + unfold or_empty_object. destruct (truthy_value (Some v)) eqn:Ht.
      * destruct (is_container v) eqn:Hv.
        -- split; [split|intros e H; discriminate H].
           ++ intros [e H]. discriminate H.
           ++ intros [H|[v' [[= <-] [_ H]]]]; congruence.
        -- split; [split|intros e [= <-]; reflexivity].
           ++ intros _. right. exists v. now repeat split.
           ++ intros _. now exists TypeError.
      * cbn [is_container]. split; [split|intros e H; discriminate H].
        -- intros [e H]. discriminate H.
        -- intros [H|[v' [[= <-] [H _]]]]; congruence.
    + cbn [or_empty_object is_container].
      split; [split|intros e H; discriminate H].
      * intros [e H]. discriminate H.
      * intros [H|[v' [H _]]]; discriminate H.
  - split; [split|intros e [= <-]; reflexivity].
    + intros _. now left.
    + intros _. now exists TypeError.
Qed.

Lemma register_server_registers (scriptPath : str) (config config' : value) :
  register_server scriptPath config = inr config' ->
  exists servers,
    get_property MCP_SERVERS config' = inr (Some servers) /\
    get_property SHELL_SERVER servers = inr (Some (server_entry scriptPath)).
Proof.
  rewrite register_server_eq.
  destruct (is_container config) eqn:Hc; [|discriminate]. cbv zeta.
  destruct (is_container (or_empty_object _)) eqn:Hs; [|discriminate].
  intros [= <-].
  destruct (with_named_container _
              (assign SHELL_SERVER (server_entry scriptPath)
                 (named (or_empty_object (lookup MCP_SERVERS (named config)))))
              Hs) as [Hs1 [Hn1 _]].
  destruct (with_named_container config
              (assign MCP_SERVERS
                 (with_named (or_empty_object (lookup MCP_SERVERS (named config)))
                    (assign SHELL_SERVER (server_entry scriptPath)
                       (named (or_empty_object
                                 (lookup MCP_SERVERS (named config))))))
                 (named config)) Hc) as [Hc1 [Hcn1 _]].
  eexists. split.
  - rewrite (get_property_container _ _ Hc1), Hcn1, lookup_assign_same.
    reflexivity.
  - rewrite (get_property_container _ _ Hs1), Hn1, lookup_assign_same.
    reflexivity.
Qed.

Ltac in_cases H :=
  repeat (cbn [In app] in H;
          match type of H with
          | _ \/ _ => destruct H as [H|H]
          | False => contradiction
          | In _ (_ ++ _) => apply in_app_or in H
          | In _ (if ?b then _ else _) => destruct b eqn:?
          | In _ (match ?x with _ => _ end) => destruct x eqn:?
          | _ = _ => first [discriminate H | inversion H; subst; clear H]
          end).

(** X19: launched through npx on a platform other than darwin and win32,
    [updateConfig] throws [Unsupported platform] before it touches
    anything, outside its own [try]; [main] then reports a server error
    and exits with code 1 without creating or connecting the server. *)
Theorem unsupported_platform_stops_startup (h : Host) :
  isNpx h = true ->
  platform h <> lit "darwin" ->
  platform h <> lit "win32" ->
  updateConfig h
  = ([], Raise (Raised (ErrorObject (lit "Unsupported platform")))) /\
  main h
  = ([ConsoleError (lit "Server error:")
        (Some (Raised (ErrorObject (lit "Unsupported platform"))))],
     Exit 1).
Proof.
  intros Hnpx Hd Hw.
  assert (Hp : getConfigPath h = inl (ErrorObject (lit "Unsupported platform"))).
  { unfold getConfigPath.
    destruct (str_eqb_spec (platform h) (lit "darwin")); [contradiction|].
    now destruct (str_eqb_spec (platform h) (lit "win32")). }
  pose proof (updateConfig_no_path h _ Hnpx Hp) as Hu.
  split; [exact Hu|]. unfold main. now rewrite Hu.
Qed.

Lemma unsupported_platform_stops_startup_witness :
  isNpx (sample_host (lit "linux") (inl ENOENT) (fun _ => inl ENOENT)) = true /\
  main (sample_host (lit "linux") (inl ENOENT) (fun _ => inl ENOENT))
  = ([ConsoleError (lit "Server error:")
        (Some (Raised (ErrorObject (lit "Unsupported platform"))))],
     Exit 1).
Proof.
  assert (H : isNpx (sample_host (lit "linux") (inl ENOENT)
                       (fun _ => inl ENOENT)) = true)
    by (vm_compute; reflexivity).
  split; [exact H|].
  exact (proj2 (unsupported_platform_stops_startup
                  (sample_host (lit "linux") (inl ENOENT) (fun _ => inl ENOENT))
                  H ltac:(vm_compute; discriminate)
                  ltac:(vm_compute; discriminate))).
Defined.

(** X20: [updateConfig] reads only the configuration path, creates only
    that path's directory and only when it is missing, and writes only the
    configuration path; whatever it writes is the serialization of a value
    whose [mcpServers] has [shell-server] set to this script's path.
    Without npx it does none of these. *)
Theorem updateConfig_touches_only_its_config (h : Host) :
  (forall q, In (ReadFile q) (events (updateConfig h)) ->
     isNpx h = true /\ getConfigPath h = inr q) /\
  (forall d, In (MkdirRecursive d) (events (updateConfig h)) ->
     isNpx h = true /\ existsSync h d = false /\
     exists q, getConfigPath h = inr q /\ d = path_dirname h q) /\
  (forall q c, In (WriteFile q c) (events (updateConfig h)) ->
     isNpx h = true /\ getConfigPath h = inr q /\
     exists config servers,
       c = JSON_stringify h config /\
       get_property MCP_SERVERS config = inr (Some servers) /\
       get_property SHELL_SERVER servers
       = inr (Some (server_entry (argv1 h)))).
Proof.
  destruct (isNpx h) eqn:Hnpx.
  2: { rewrite (updateConfig_not_npx h Hnpx).
       (split; [|split]); intros; unfold events in H; cbn [fst] in H;
         in_cases H. }
  destruct (getConfigPath h) as [e|p] eqn:Hp.
  { rewrite (updateConfig_no_path h e Hnpx Hp).
    (split; [|split]); intros; unfold events in H; cbn [fst] in H;
      in_cases H. }
  rewrite (updateConfig_npx h p Hnpx Hp). cbv zeta.
  destruct (register_server (argv1 h) _) as [e|config'] eqn:Hr.
  { (split; [|split]); intros; unfold events, CREATING, FAILED in H;
      cbn [fst] in H; in_cases H; try (split; reflexivity). }
  destruct (register_server_registers _ _ _ Hr) as [servers [Hg1 Hg2]].
  destruct (existsSync h (path_dirname h p)) eqn:He;
    [|destruct (mkdirSync h (path_dirname h p)) eqn:Hm];
    destruct (writeFileSync h p (JSON_stringify h config'));
    (split; [|split]); intros; unfold events, CREATING, FAILED in H;
    cbn [fst] in H; in_cases H;
    try (split; reflexivity);
    try (split; [reflexivity|split; [exact He|eexists; split; reflexivity]]);
    try (split; [reflexivity|split; [reflexivity|
           exists config', servers; now repeat split]]).
Qed.

Lemma updateConfig_touches_only_its_config_witness :
  In (WriteFile (lit "/Users/u/Library/Application Support/Claude/claude_desktop_config.json")
                (lit "mcpServers"))
     (events (updateConfig (sample_host (lit "darwin") (inl ENOENT)
                              (fun _ => inl ENOENT)))) /\
  getConfigPath (sample_host (lit "darwin") (inl ENOENT) (fun _ => inl ENOENT))
  = inr (lit "/Users/u/Library/Application Support/Claude/claude_desktop_config.json").
Proof.
  assert (H : In (WriteFile (lit "/Users/u/Library/Application Support/Claude/claude_desktop_config.json")
                            (lit "mcpServers"))
                 (events (updateConfig (sample_host (lit "darwin") (inl ENOENT)
                                          (fun _ => inl ENOENT)))))
    by (vm_compute; do 3 right; left; reflexivity).
  split; [exact H|].
  exact (proj1 (proj2 (proj2 (proj2
           (updateConfig_touches_only_its_config
              (sample_host (lit "darwin") (inl ENOENT) (fun _ => inl ENOENT))))
           _ _ H))).
Defined.

Lemma updateConfig_never_connects (h : Host) :
  ~ In ConnectTransport (events (updateConfig h)).
Proof.
  intros H. destruct (isNpx h) eqn:Hnpx.
  2: { rewrite (updateConfig_not_npx h Hnpx) in H.
       unfold events in H; cbn [fst] in H; in_cases H. }
  destruct (getConfigPath h) as [e|p] eqn:Hp.
  { rewrite (updateConfig_no_path h e Hnpx Hp) in H.
    unfold events in H; cbn [fst] in H; in_cases H. }
  rewrite (updateConfig_npx h p Hnpx Hp) in H. cbv zeta in H.
  destruct (register_server (argv1 h) _) as [e|config'].
  { unfold events, CREATING, FAILED in H; cbn [fst] in H; in_cases H. }
  destruct (existsSync h (path_dirname h p));
    [|destruct (mkdirSync h (path_dirname h p))];
    destruct (writeFileSync h p (JSON_stringify h config'));
    unfold events, CREATING, FAILED in H; cbn [fst] in H; in_cases H.
Qed.

(** X21: [main] never lets an exception escape: the process either goes
    on (the server connected and announced) or exits with code 1.  The
    transport is connected exactly when [updateConfig] completed, and
    [main] completes exactly when, in addition, connecting did not fail. *)
Theorem main_serves_or_exits (h : Host) :
  (ending (main h) = Done tt \/ ending (main h) = Exit 1) /\
  (In ConnectTransport (events (main h))
   <-> ending (updateConfig h) = Done tt) /\
  (ending (main h) = Done tt
   <-> ending (updateConfig h) = Done tt /\ connect h = None).
Proof.
  pose proof (updateConfig_never_connects h) as Hnc.
  pose proof (updateConfig_ending h) as He.
  unfold main. destruct (updateConfig h) as [t r].
  unfold events, ending in *. cbn [fst snd] in *.
  destruct He as [->|[->| ->]]; [destruct (connect h) as [e|]|idtac..]; cbn.
  all: split; [first [now left|now right]|].
  all: (split; split); intros.
  all: repeat match goal with H : _ /\ _ |- _ => destruct H end;
    try congruence; try (now split);
    try (rewrite ?in_app_iff; cbn [In]; tauto).
  all: exfalso; rewrite ?in_app_iff in *; cbn [In] in *;
    intuition congruence.
Qed.

(** X22: when the configuration file cannot be read or parsed, the old
    content is not looked at again: the program logs that it creates a new
    file, and whatever it writes is the serialization of the fresh
    configuration holding only this server; if the directory exists or
    can be made and the write succeeds, that file is written and
    [updateConfig] completes. *)
Theorem unreadable_config_is_replaced (h : Host) (p : str) :
  isNpx h = true ->
  getConfigPath h = inr p ->
  loaded h p = None ->
  In CREATING (events (updateConfig h)) /\
  (forall q c, In (WriteFile q c) (events (updateConfig h)) ->
     q = p /\ c = JSON_stringify h (fresh_config (argv1 h))) /\
  ((existsSync h (path_dirname h p) = true \/
    mkdirSync h (path_dirname h p) = None) ->
   writeFileSync h p (JSON_stringify h (fresh_config (argv1 h))) = None ->
   In (WriteFile p (JSON_stringify h (fresh_config (argv1 h))))
      (events (updateConfig h)) /\
   ending (updateConfig h) = Done tt).
Proof.
  intros Hnpx Hp Hl. rewrite (updateConfig_npx h p Hnpx Hp), Hl. cbv zeta.
  change (register_server (argv1 h) (VObj []))
    with (@inr exn value (fresh_config (argv1 h))).
  cbv iota.
  destruct (existsSync h (path_dirname h p)) eqn:He;
    [|destruct (mkdirSync h (path_dirname h p)) eqn:Hm];
    destruct (writeFileSync h p (JSON_stringify h (fresh_config (argv1 h))))
      eqn:Hw.
  all: split; [unfold events; cbn [fst app In]; now (right; left)|].
  all: split.
  all: try (intros q c H; unfold events, CREATING, FAILED in H;
            cbn [fst] in H; in_cases H; now split).
  all: intros Hdir Hwrite; try discriminate Hwrite.
  all: try (destruct Hdir as [Hdir|Hdir]; discriminate Hdir).
  all: split; [unfold events; cbn [fst app In]; tauto|reflexivity].
Qed.

Lemma unreadable_config_is_replaced_witness :
  loaded (sample_host (lit "darwin") (inr (lit "{oops")) (fun _ => inl ENOENT))
    (lit "/Users/u/Library/Application Support/Claude/claude_desktop_config.json")
  = None /\
  In CREATING
     (events (updateConfig (sample_host (lit "darwin") (inr (lit "{oops"))
                              (fun _ => inl ENOENT)))).
Proof.
  assert (H : loaded (sample_host (lit "darwin") (inr (lit "{oops"))
                        (fun _ => inl ENOENT))
                (lit "/Users/u/Library/Application Support/Claude/claude_desktop_config.json")
              = None) by reflexivity.
  split; [exact H|].
  exact (proj1 (unreadable_config_is_replaced
                  (sample_host (lit "darwin") (inr (lit "{oops"))
                     (fun _ => inl ENOENT))
                  _ ltac:(vm_compute; reflexivity)
                  ltac:(vm_compute; reflexivity) H)).
Defined.

(** X23: when the file parses but registering fails (see X18), nothing is
    written: [updateConfig] reads the file, reports the error and exits
    with code 1, leaving the file as it was. *)
Theorem misshapen_config_is_left_alone
    (h : Host) (p content : str) (config : value) (e : exn) :
  isNpx h = true ->
  getConfigPath h = inr p ->
  readFileSync h p = inr content ->
  JSON_parse h content = inr config ->
  register_server (argv1 h) config = inl e ->
  updateConfig h = ([ReadFile p; FAILED e], Exit 1).
Proof.
  intros Hnpx Hp Hread Hparse Hreg.
  rewrite (updateConfig_npx h p Hnpx Hp). unfold loaded.
  rewrite Hread, Hparse. cbv zeta. now rewrite Hreg.
Qed.

Lemma misshapen_config_is_left_alone_witness :
  updateConfig (sample_host (lit "darwin") (inr (lit "null"))
                  (fun _ => inr VNull))
  = ([ReadFile (lit "/Users/u/Library/Application Support/Claude/claude_desktop_config.json");
      FAILED TypeError], Exit 1).
Proof.
  exact (misshapen_config_is_left_alone
           (sample_host (lit "darwin") (inr (lit "null")) (fun _ => inr VNull))
           _ (lit "null") VNull TypeError
           ltac:(vm_compute; reflexivity) ltac:(vm_compute; reflexivity)
           eq_refl eq_refl eq_refl).
Defined.

End ConfigFacts.
